(** * Bygglovskartan scraper: a shallow embedding of [scripts/bygglov_scraper.py]

    The development follows the Python module function by function:
    the JSON values that [response.json()] hands to the scraper, the Python
    primitives the scraper applies to them (with the exceptions they raise),
    the record normaliser [extract_permit_data], the writer [save_to_csv],
    the rate limiter [_rate_limit_wait], the two HTTP calls, the marker loop
    of [scrape_bounding_box] and the grid loops of [scrape_sweden] and
    [scrape_stockholm_complete].

    Numbers.  Python floats are modelled by their exact rational value
    ([Q]); rounding, overflow, NaN and the infinities are outside the model.
    Python integers are [Z].  Time stamps of [time.time()] are rationals as
    well.

    Strings.  A character of a Python string is an [ascii]; code points
    above 255 are outside the model.

    Dicts.  A dict decoded from JSON is an association list; the first
    binding of a key is the value the dict holds for it.

    Logging.  Calls to [logger] have no effect on what the functions return
    and are left out, except that a value formatted into a message is
    computed where computing it can raise ([len(features)]). *)

From Stdlib Require Import List String Ascii Bool ZArith QArith Qround Lia Lqa.
Import ListNotations.
Set Warnings "-register-all".
Local Open Scope string_scope.
Local Open Scope Z_scope.

(** ** Exceptions and results *)

(** The exception classes that the modelled code can meet.  The first five
    are Python built-ins raised by the primitives below; the others come
    from [requests] and [json]. *)
Inductive exn : Type :=
| AttributeError
| KeyError
| IndexError
| TypeError
| ZeroDivisionError
| ConnectionError
| Timeout
| HTTPError (status : Z)
| JSONDecodeError
| OtherError (name : string).

(** [isinstance(e, requests.exceptions.RequestException)] *)
Definition is_RequestException (e : exn) : bool :=
  match e with
  | ConnectionError | Timeout | HTTPError _ => true
  | _ => false
  end.

(** [isinstance(e, json.JSONDecodeError)] *)
Definition is_JSONDecodeError (e : exn) : bool :=
  match e with
  | JSONDecodeError => true
  | _ => false
  end.

Inductive result (A : Type) : Type :=
| Ok (a : A)
| Raise (e : exn).
Arguments Ok {A} a.
Arguments Raise {A} e.

Definition rbind {A B : Type} (m : result A) (k : A -> result B) : result B :=
  match m with
  | Ok a => k a
  | Raise e => Raise e
  end.

Declare Scope result_scope.
Delimit Scope result_scope with result.
Notation "x <- m ;; k" := (rbind m (fun x => k))
  (at level 61, m at next level, right associativity) : result_scope.

Definition raises {A : Type} (m : result A) : Prop :=
  exists e, m = Raise e.

(** ** JSON values as Python sees them *)

Inductive json : Type :=
| JNull
| JBool (b : bool)
| JInt (n : Z)
| JFloat (q : Q)
| JStr (s : string)
| JList (l : list json)
| JObj (kvs : list (string * json)).

(** [bool(v)] *)
Definition truthy (v : json) : bool :=
  match v with
  | JNull => false
  | JBool b => b
  | JInt n => negb (n =? 0)
  | JFloat q => negb (Qeq_bool q 0)
  | JStr s => negb (s =? "")%string
  | JList l => match l with [] => false | _ => true end
  | JObj kvs => match kvs with [] => false | _ => true end
  end.

Fixpoint assoc (k : string) (kvs : list (string * json)) : option json :=
  match kvs with
  | [] => None
  | (k', v) :: rest => if (k =? k')%string then Some v else assoc k rest
  end.

(** [d.get(k, default)]: only a dict has the method. *)
Definition dict_get (d : json) (k : string) (default : json) : result json :=
  match d with
  | JObj kvs => Ok (match assoc k kvs with Some v => v | None => default end)
  | _ => Raise AttributeError
  end.

(** [v == s] for a string literal [s]. *)
Definition eq_str (v : json) (s : string) : bool :=
  match v with
  | JStr t => (t =? s)%string
  | _ => false
  end.

Fixpoint chars (s : string) : list json :=
  match s with
  | EmptyString => []
  | String c rest => JStr (String c EmptyString) :: chars rest
  end.

(** [v[i]] for a literal index [i]: lists and strings are indexed, a dict
    decoded from JSON has only string keys, anything else is not
    subscriptable. *)
Definition getitem (v : json) (i : nat) : result json :=
  match v with
  | JList l => match nth_error l i with Some x => Ok x | None => Raise IndexError end
  | JStr s => match nth_error (chars s) i with Some x => Ok x | None => Raise IndexError end
  | JObj _ => Raise KeyError
  | _ => Raise TypeError
  end.

(** [len(v)] *)
Definition py_len (v : json) : result nat :=
  match v with
  | JList l => Ok (List.length l)
  | JStr s => Ok (String.length s)
  | JObj kvs => Ok (List.length kvs)
  | _ => Raise TypeError
  end.

(** [iter(v)]: the items a [for] loop or a generator visits. *)
Definition py_iter (v : json) : result (list json) :=
  match v with
  | JList l => Ok l
  | JStr s => Ok (chars s)
  | JObj kvs => Ok (map (fun kv => JStr (fst kv)) kvs)
  | _ => Raise TypeError
  end.

(** The numeric value of a Python number; [bool] is a subclass of [int]. *)
Definition num_of (v : json) : option Q :=
  match v with
  | JBool b => Some (if b then 1%Q else 0%Q)
  | JInt n => Some (inject_Z n)
  | JFloat q => Some q
  | _ => None
  end.

(** The value of a Python integer; [True] is 1 and [False] is 0. *)
Definition int_of (v : json) : option Z :=
  match v with
  | JBool b => Some (Z.b2z b)
  | JInt n => Some n
  | _ => None
  end.

(** [a + b] on numbers: integers stay integers, a float operand makes the
    sum a float (exactly; an integer too large for a float, on which Python
    raises [OverflowError], is outside the model). *)
Definition py_add (a b : json) : result json :=
  match int_of a, int_of b with
  | Some x, Some y => Ok (JInt (x + y))
  | _, _ =>
      match num_of a, num_of b with
      | Some x, Some y => Ok (JFloat (Qred (x + y)))
      | _, _ => Raise TypeError
      end
  end.

(** [a / n] for [n = len(...)]: true division, always a float.  The
    quotient is exact here; the [OverflowError] that Python raises when an
    integer is too large for a float is outside the model. *)
Definition py_truediv (a : json) (n : nat) : result json :=
  match num_of a with
  | Some x =>
      match n with
      | O => Raise ZeroDivisionError
      | S _ => Ok (JFloat (Qred (x / inject_Z (Z.of_nat n))))
      end
  | None => Raise TypeError
  end.

(** [sum(v[i] for v in vertices)]: the generator is consumed left to right,
    starting from the integer [0]. *)
Fixpoint sum_component (i : nat) (vertices : list json) (acc : json) : result json :=
  match vertices with
  | [] => Ok acc
  | v :: rest =>
      (x <- getitem v i ;;
       acc' <- py_add acc x ;;
       sum_component i rest acc')%result
  end.

(** [hash(v)] succeeds on scalars only. *)
Definition hashable (v : json) : bool :=
  match v with
  | JList _ | JObj _ => false
  | _ => true
  end.

(** Equality of two hashable values as a [dict] or [set] sees it: numbers
    (booleans included) by value, strings by content, [None] with itself. *)
Definition key_eqb (a b : json) : bool :=
  match num_of a, num_of b with
  | Some x, Some y => Qeq_bool x y
  | None, None =>
      match a, b with
      | JNull, JNull => true
      | JStr s, JStr t => (s =? t)%string
      | _, _ => false
      end
  | _, _ => false
  end.

(** ** The permit type table *)

(** The label of code 3, with its o-umlaut (code point 246) as one
    character. *)
Definition Forhandsbesked : string :=
  "F" ++ String (ascii_of_nat 246) "rhandsbesked".

Definition PERMIT_TYPES : list (json * string) :=
  [ (JInt 0, "Bygglov");
    (JInt 1, "Rivningslov");
    (JInt 2, "Marklov");
    (JInt 3, Forhandsbesked) ].

Fixpoint table_find (k : json) (t : list (json * string)) : option string :=
  match t with
  | [] => None
  | (k', v) :: rest => if key_eqb k k' then Some v else table_find k rest
  end.

(** [PERMIT_TYPES.get(k, default)]: the key is hashed first. *)
Definition PERMIT_TYPES_get (k : json) (default : string) : result string :=
  if hashable k
  then Ok (match table_find k PERMIT_TYPES with Some v => v | None => default end)
  else Raise TypeError.

(** ** The record normaliser *)

(** The dict returned by [extract_permit_data], keys in insertion order. *)
Record row : Type := mkRow {
  permit_id : json;
  property_name : json;
  municipal_case_id : json;
  publication_date : json;
  municipality : json;
  permit_type_num : json;
  permit_type : string;
  longitude : json;
  latitude : json
}.

(** The geometry part of [extract_permit_data]: the pair [(lon, lat)]. *)
Definition extract_coordinates (geometry : json) : result (json * json) :=
  (coords <- dict_get geometry "coordinates" (JList []) ;;
   gtype <- dict_get geometry "type" JNull ;;
   if eq_str gtype "Polygon" && truthy coords then
     vertices <- (if truthy coords then getitem coords 0 else Ok (JList [])) ;;
     if truthy vertices then
       vs <- py_iter vertices ;;
       sx <- sum_component 0 vs (JInt 0) ;;
       n <- py_len vertices ;;
       lon <- py_truediv sx n ;;
       sy <- sum_component 1 vs (JInt 0) ;;
       n' <- py_len vertices ;;
       lat <- py_truediv sy n' ;;
       Ok (lon, lat)
     else Ok (JNull, JNull)
   else if eq_str gtype "Point" then
     n <- py_len coords ;;
     if (2 <=? n)%nat then
       lon <- getitem coords 0 ;;
       lat <- getitem coords 1 ;;
       Ok (lon, lat)
     else Ok (JNull, JNull)
   else Ok (JNull, JNull))%result.

Definition extract_permit_data (permit : json) : result row :=
  (properties <- dict_get permit "properties" (JObj []) ;;
   geometry <- dict_get permit "geometry" (JObj []) ;;
   lonlat <- extract_coordinates geometry ;;
   typ_num <- dict_get properties "typ_num" (JInt (-1)) ;;
   pid <- dict_get properties "id" (JStr "") ;;
   fastighet <- dict_get properties "fastighet" (JStr "") ;;
   kun_id <- dict_get properties "kun_id" (JStr "") ;;
   pubdate <- dict_get properties "pubdate" (JStr "") ;;
   subtext <- dict_get properties "subtext" (JStr "") ;;
   label <- PERMIT_TYPES_get typ_num "Unknown" ;;
   Ok {| permit_id := pid;
         property_name := fastighet;
         municipal_case_id := kun_id;
         publication_date := pubdate;
         municipality := subtext;
         permit_type_num := typ_num;
         permit_type := label;
         longitude := fst lonlat;
         latitude := snd lonlat |})%result.

(** ** The writer *)

(** What [csv.DictWriter] leaves in the file: the header line and one row
    per record, in order.  The text encoding of the cells is not modelled. *)
Record csv_file : Type := mkCsv {
  header : list string;
  rows : list row
}.

(** [unique_permits[0].keys()]: the keys of a normalised row, in insertion
    order. *)
Definition fieldnames : list string :=
  [ "permit_id"; "property_name"; "municipal_case_id"; "publication_date";
    "municipality"; "permit_type_num"; "permit_type"; "longitude"; "latitude" ].

(** The files on disk, by path. *)
Definition filesystem : Type := string -> option csv_file.

Definition no_files : filesystem := fun _ => None.

(** [open(path, 'w')] followed by the writes: the file is created or
    replaced.  Opening is taken to succeed; a path that cannot be opened
    (a missing directory, no permission), where [open] raises and nothing
    is written, is outside the model. *)
Definition write_file (path : string) (f : csv_file) (fs : filesystem) : filesystem :=
  fun p => if (p =? path)%string then Some f else fs p.

(** [[self.extract_permit_data(p) for p in permits]] *)
Fixpoint clean_all (permits : list json) : result (list row) :=
  match permits with
  | [] => Ok []
  | p :: rest =>
      (r <- extract_permit_data p ;;
       rs <- clean_all rest ;;
       Ok (r :: rs))%result
  end.

(** [x in seen_ids] for a set of hashable values. *)
Definition set_mem (x : json) (seen_ids : list json) : bool :=
  existsb (key_eqb x) seen_ids.

(** The loop that removes duplicates; [seen_ids] is the set, [unique_permits]
    the list being appended to. *)
Fixpoint dedup_loop (cleaned : list row) (seen_ids : list json) (unique_permits : list row)
  : result (list row) :=
  match cleaned with
  | [] => Ok unique_permits
  | p :: rest =>
      if hashable (permit_id p) then
        if negb (set_mem (permit_id p) seen_ids)
        then dedup_loop rest (permit_id p :: seen_ids) (unique_permits ++ [p])%list
        else dedup_loop rest seen_ids unique_permits
      else Raise TypeError
  end.

(** [save_to_csv(permits, output_file)]: [Ok fs'] is a normal return (the
    method returns [None]) that leaves the files [fs']. *)
Definition save_to_csv (permits : list json) (output_file : string) (fs : filesystem)
  : result filesystem :=
  match permits with
  | [] => Ok fs
  | _ :: _ =>
      (cleaned_permits <- clean_all permits ;;
       unique_permits <- dedup_loop cleaned_permits [] [] ;;
       Ok (write_file output_file {| header := fieldnames; rows := unique_permits |} fs))%result
  end.

(** ** The scraper object and the outside world *)

Inductive request : Type :=
| GetLocations (lat_min lat_max lon_min lon_max : Q) (window : Z) (types : list Z)
| GetDetails (permit_id : json).

(** What one exchange with the server comes to: [session.get],
    [raise_for_status] or [response.json()] raises [e], or the body decodes
    to [data]. *)
Inductive http_outcome : Type :=
| Fails (e : exn)
| Decoded (data : json).

(** What the server did with one request: the transport failed and there
    is no answer, or there is an answer with a status code and a body that
    decodes as JSON or does not. *)
Inductive transport_error : Type :=
| ConnectionFailed
| TimedOut.

Inductive response_body : Type :=
| Undecodable
| Json (data : json).

Inductive http_response : Type :=
| NoResponse (why : transport_error)
| Response (status : Z) (body : response_body).

(** [response.raise_for_status()] as the requests library defines it:
    [HTTPError] for a status from 400 to 599, nothing for any other
    status. *)
Definition raise_for_status (status : Z) : result unit :=
  if (400 <=? status) && (status <? 600) then Raise (HTTPError status) else Ok tt.

(** The three steps both calls take, in their order: [session.get] raises
    [ConnectionError] or [Timeout] when the transport fails, then
    [raise_for_status], then [response.json()], which raises
    [JSONDecodeError] on a body that is not JSON. *)
Definition exchange (r : http_response) : http_outcome :=
  match r with
  | NoResponse ConnectionFailed => Fails ConnectionError
  | NoResponse TimedOut => Fails Timeout
  | Response status body =>
      match raise_for_status status with
      | Raise e => Fails e
      | Ok _ =>
          match body with
          | Undecodable => Fails JSONDecodeError
          | Json data => Decoded data
          end
      end
  end.

(** The answers that end in one of the two [except] clauses: no answer, a
    status from 400 to 599, or a body that does not decode. *)
Definition failed (r : http_response) : bool :=
  match r with
  | NoResponse _ => true
  | Response status body =>
      ((400 <=? status) && (status <? 600))
      || match body with Undecodable => true | Json _ => false end
  end.

(** The server and the clock as the scraper meets them: the outcome of a
    request given the requests sent before it, how long the n-th request
    takes and by how much the n-th sleep overshoots. *)
Record remote : Type := mkRemote {
  respond : list request -> request -> http_outcome;
  latency : nat -> Q;
  oversleep : nat -> Q
}.

(** The attributes of the scraper object that change or are read, the wall
    clock and the log of requests issued (newest first). *)
Record state : Type := mkState {
  rate_limit : Q;
  last_request_time : Q;
  now : Q;
  sent : list request
}.

(** [BygglovScraper(rate_limit_seconds)] created when the clock reads [t]. *)
Definition new_scraper (rate_limit_seconds t : Q) : state :=
  {| rate_limit := rate_limit_seconds; last_request_time := 0; now := t; sent := [] |}.

Definition Qltb (x y : Q) : bool := negb (Qle_bool y x).

(** [time.sleep(d)]: the clock advances by [d] and by the overshoot. *)
Definition sleep (d extra : Q) (s : state) : state :=
  {| rate_limit := rate_limit s; last_request_time := last_request_time s;
     now := now s + d + extra; sent := sent s |}.

(** Time spent outside the limiter. *)
Definition advance (d : Q) (s : state) : state :=
  {| rate_limit := rate_limit s; last_request_time := last_request_time s;
     now := now s + d; sent := sent s |}.

(** [_rate_limit_wait()]; [extra] is the overshoot of the sleep, if any. *)
Definition _rate_limit_wait (extra : Q) (s : state) : state :=
  let elapsed := (now s - last_request_time s)%Q in
  let s1 := if Qltb elapsed (rate_limit s)
            then sleep (rate_limit s - elapsed) extra s
            else s in
  {| rate_limit := rate_limit s1; last_request_time := now s1;
     now := now s1; sent := sent s1 |}.

(** A call issued through the limiter: wait, note when the call begins,
    then spend [work] seconds on the call itself. *)
Definition limited_call (extra work : Q) (s : state) : Q * state :=
  let s1 := _rate_limit_wait extra s in
  (now s1, advance work s1).

(** Calls issued one after the other; the result lists when each began. *)
Fixpoint limited_calls (schedule : list (Q * Q)) (s : state) : list Q * state :=
  match schedule with
  | [] => ([], s)
  | (extra, work) :: rest =>
      let (t, s1) := limited_call extra work s in
      let (ts, s2) := limited_calls rest s1 in
      (t :: ts, s2)
  end.

(** ** Stateful computations that may raise *)

Definition M (A : Type) : Type := state -> result A * state.

Definition ret {A : Type} (a : A) : M A := fun s => (Ok a, s).

Definition throw {A : Type} (e : exn) : M A := fun s => (Raise e, s).

Definition bind {A B : Type} (m : M A) (k : A -> M B) : M B :=
  fun s =>
    match m s with
    | (Ok a, s') => k a s'
    | (Raise e, s') => (Raise e, s')
    end.

Definition lift {A : Type} (r : result A) : M A := fun s => (r, s).

(** [try: body  except ...: handler], where [handler e] is [None] when no
    [except] clause matches [e]. *)
Definition try_except {A : Type} (body : M A) (handler : exn -> option (M A)) : M A :=
  fun s =>
    match body s with
    | (Ok a, s') => (Ok a, s')
    | (Raise e, s') =>
        match handler e with
        | Some h => h s'
        | None => (Raise e, s')
        end
    end.

Declare Scope M_scope.
Delimit Scope M_scope with M.
Notation "x <- m ;; k" := (bind m (fun x => k))
  (at level 61, m at next level, right associativity) : M_scope.

Definition wait (net : remote) : M unit :=
  fun s => (Ok tt, _rate_limit_wait (oversleep net (List.length (sent s))) s).

(** [self.session.get(...)], [raise_for_status()] and [response.json()]. *)
Definition http_get (net : remote) (req : request) : M json :=
  fun s =>
    let s' := {| rate_limit := rate_limit s; last_request_time := last_request_time s;
                 now := now s + latency net (List.length (sent s));
                 sent := req :: sent s |} in
    match respond net (sent s) req with
    | Fails e => (Raise e, s')
    | Decoded data => (Ok data, s')
    end.

(** The two [except] clauses shared by both calls. *)
Definition on_http_error (fallback : json) (e : exn) : option (M json) :=
  if is_RequestException e then Some (ret fallback)
  else if is_JSONDecodeError e then Some (ret fallback)
  else None.

Definition get_locations (net : remote) (lat_min lat_max lon_min lon_max : Q)
    (window : Z) (types : list Z) : M json :=
  (_ <- wait net ;;
   try_except
     (data <- http_get net (GetLocations lat_min lat_max lon_min lon_max window types) ;;
      count <- lift (dict_get data "count" (JInt 0)) ;;
      inner <- lift (dict_get data "data" (JObj [])) ;;
      features <- lift (dict_get inner "features" (JList [])) ;;
      _ <- lift (py_len features) ;;
      ret features)
     (on_http_error (JList [])))%M.

Definition get_permit_details (net : remote) (permit_id : json) : M json :=
  (_ <- wait net ;;
   try_except
     (http_get net (GetDetails permit_id))
     (on_http_error (JObj [])))%M.

(** [location.get('properties', {}).get('id')] *)
Definition marker_id (location : json) : result json :=
  (properties <- dict_get location "properties" (JObj []) ;;
   dict_get properties "id" JNull)%result.

(** The body of the marker loop of [scrape_bounding_box]; [None] when the
    marker is skipped by [continue]. *)
Definition fetch_one (net : remote) (location : json) : M (option json) :=
  (permit_id <- lift (marker_id location) ;;
   if negb (truthy permit_id) then ret None
   else
     details <- get_permit_details net permit_id ;;
     if truthy details then ret (Some details) else ret None)%M.

Fixpoint fetch_loop (net : remote) (locations : list json) (detailed_permits : list json)
  : M (list json) :=
  match locations with
  | [] => ret detailed_permits
  | location :: rest =>
      (r <- fetch_one net location ;;
       match r with
       | Some details => fetch_loop net rest (detailed_permits ++ [details])%list
       | None => fetch_loop net rest detailed_permits
       end)%M
  end.

Definition scrape_bounding_box (net : remote) (lat_min lat_max lon_min lon_max : Q)
    (window : Z) (types : list Z) (fetch_details : bool) : M json :=
  (locations <- get_locations net lat_min lat_max lon_min lon_max window types ;;
   if negb (truthy locations) then ret (JList [])
   else if negb fetch_details then ret locations
   else
     _ <- lift (py_len locations) ;;
     items <- lift (py_iter locations) ;;
     detailed_permits <- fetch_loop net items [] ;;
     ret (JList detailed_permits))%M.

(** ** The grid *)

Record bbox : Type := mkBBox {
  lat_min : Q;
  lat_max : Q;
  lon_min : Q;
  lon_max : Q
}.

Definition sweden_bbox : bbox :=
  {| lat_min := 55; lat_max := 69; lon_min := 21 # 2; lon_max := 49 # 2 |}.

Definition stockholm_bbox : bbox :=
  {| lat_min := 296 # 5; lat_max := 119 # 2; lon_min := 89 # 5; lon_max := 91 # 5 |}.

(** [min(a, b)] *)
Definition py_min (a b : Q) : Q := if Qltb b a then b else a.

(** The inner [while lon < lon_max] loop: the cells of one row, west to
    east.  [None] when [fuel] iterations were not enough. *)
Fixpoint lon_loop (fuel : nat) (b : bbox) (grid_size lat lon : Q) : option (list bbox) :=
  if Qltb lon (lon_max b) then
    match fuel with
    | O => None
    | S fuel' =>
        let cell := {| lat_min := lat; lat_max := py_min (lat + grid_size) (lat_max b);
                       lon_min := lon; lon_max := py_min (lon + grid_size) (lon_max b) |} in
        match lon_loop fuel' b grid_size lat (lon + grid_size) with
        | Some cells => Some (cell :: cells)
        | None => None
        end
    end
  else Some [].

(** The outer [while lat < lat_max] loop: the rows, south to north. *)
Fixpoint lat_loop (fuel lon_fuel : nat) (b : bbox) (grid_size lat : Q) : option (list bbox) :=
  if Qltb lat (lat_max b) then
    match fuel with
    | O => None
    | S fuel' =>
        match lon_loop lon_fuel b grid_size lat (lon_min b) with
        | Some row_cells =>
            match lat_loop fuel' lon_fuel b grid_size (lat + grid_size) with
            | Some cells => Some (row_cells ++ cells)%list
            | None => None
            end
        | None => None
        end
    end
  else Some [].

(** The boxes handed to [scrape_bounding_box], in call order. *)
Definition grid_cells (fuel : nat) (b : bbox) (grid_size : Q) : option (list bbox) :=
  lat_loop fuel fuel b grid_size (lat_min b).

(** [all_permits.extend(permits)] for each cell in turn. *)
Fixpoint scrape_cells (net : remote) (cells : list bbox) (window : Z) (types : list Z)
    (fetch_details : bool) (all_permits : list json) : M (list json) :=
  match cells with
  | [] => ret all_permits
  | c :: rest =>
      (permits <- scrape_bounding_box net (lat_min c) (lat_max c) (lon_min c) (lon_max c)
                    window types fetch_details ;;
       items <- lift (py_iter permits) ;;
       scrape_cells net rest window types fetch_details (all_permits ++ items)%list)%M
  end.

(** [scrape_sweden(window, types, grid_size, fetch_details)]; [None] when
    the grid loops did not finish within [fuel] iterations. *)
Definition scrape_sweden (net : remote) (fuel : nat) (window : Z) (types : list Z)
    (grid_size : Q) (fetch_details : bool) : option (M (list json)) :=
  match grid_cells fuel sweden_bbox grid_size with
  | Some cells => Some (scrape_cells net cells window types fetch_details [])
  | None => None
  end.

(** The crawl of [scrape_stockholm_complete], before it saves. *)
Definition scrape_stockholm_complete (net : remote) (fuel : nat) : option (M (list json)) :=
  match grid_cells fuel stockholm_bbox (1 # 10) with
  | Some cells => Some (scrape_cells net cells 30 [0; 1; 2; 3] true [])
  | None => None
  end.

(** A point lies in a box, borders included. *)
Definition inside (c : bbox) (lat lon : Q) : Prop :=
  (lat_min c <= lat /\ lat <= lat_max c /\ lon_min c <= lon /\ lon <= lon_max c)%Q.

(** ** Which records the normaliser accepts *)

(** The numeric value of component [i] of a vertex, when it has one. *)
Definition coord_of (i : nat) (v : json) : option Q :=
  match v with
  | JList l => match nth_error l i with Some x => num_of x | None => None end
  | _ => None
  end.

Definition vertex_ok (v : json) : bool :=
  match coord_of 0 v, coord_of 1 v with
  | Some _, Some _ => true
  | _, _ => false
  end.

(** A first ring is usable when it is falsy (no vertices) or a list of
    vertices that each carry two numbers. *)
Definition ring_ok (ring : json) : bool :=
  if truthy ring then
    match ring with
    | JList vs => forallb vertex_ok vs
    | _ => false
    end
  else true.

Definition field_or (kvs : list (string * json)) (k : string) (default : json) : json :=
  match assoc k kvs with Some v => v | None => default end.

Definition geometry_ok (geometry : json) : bool :=
  match geometry with
  | JObj g =>
      let coords := field_or g "coordinates" (JList []) in
      let gtype := field_or g "type" JNull in
      if eq_str gtype "Polygon" && truthy coords then
        match coords with
        | JList (ring :: _) => ring_ok ring
        | _ => false
        end
      else if eq_str gtype "Point" then
        match coords with
        | JList _ | JStr _ => true
        | JObj kvs => (List.length kvs <? 2)%nat
        | _ => false
        end
      else true
  | _ => false
  end.

(** The records on which [extract_permit_data] returns (in the model:
    numbers within the range of a float): a dict whose
    [properties] and [geometry] entries, when present, are dicts, whose type
    code can be hashed and whose coordinates fit the geometry type. *)
Definition record_ok (permit : json) : bool :=
  match permit with
  | JObj p =>
      match field_or p "properties" (JObj []) with
      | JObj props =>
          hashable (field_or props "typ_num" (JInt (-1)))
          && geometry_ok (field_or p "geometry" (JObj []))
      | _ => false
      end
  | _ => false
  end.

Definition properties_of (permit : json) : list (string * json) :=
  match permit with
  | JObj p => match field_or p "properties" (JObj []) with JObj props => props | _ => [] end
  | _ => []
  end.

Definition geometry_of (permit : json) : list (string * json) :=
  match permit with
  | JObj p => match field_or p "geometry" (JObj []) with JObj g => g | _ => [] end
  | _ => []
  end.

(** The arithmetic mean of a list of rationals. *)
Definition Qsum (xs : list Q) : Q := fold_right Qplus 0%Q xs.

Definition mean (xs : list Q) : Q := (Qsum xs / inject_Z (Z.of_nat (List.length xs)))%Q.

Definition component (i : nat) (v : json) : Q :=
  match coord_of i v with Some x => x | None => 0%Q end.

(** The label the specification gives to each type code. *)
Definition permit_type_label (code : Z) : string :=
  match code with
  | 0 => "Bygglov"
  | 1 => "Rivningslov"
  | 2 => "Marklov"
  | 3 => Forhandsbesked
  | _ => "Unknown"
  end.

(** ** Sample records *)

Definition vertex (x y : Z) : json := JList [JInt x; JInt y].

(** A polygon feature with the square ring (0,0), (2,0), (2,2), (0,2). *)
Definition square_permit : json :=
  JObj [ ("properties", JObj [ ("id", JInt 7); ("typ_num", JInt 1) ]);
         ("geometry",
          JObj [ ("type", JStr "Polygon");
                 ("coordinates",
                  JList [ JList [ vertex 0 0; vertex 2 0; vertex 2 2; vertex 0 2 ] ]) ]) ].

(** A polygon feature whose only vertex has a single coordinate. *)
Definition short_vertex_permit : json :=
  JObj [ ("properties", JObj [ ("id", JInt 7) ]);
         ("geometry",
          JObj [ ("type", JStr "Polygon");
                 ("coordinates", JList [ JList [ JList [ JFloat (35 # 2) ] ] ]) ]) ].

(** A feature without a location: its [geometry] member is [null]. *)
Definition null_geometry_permit : json :=
  JObj [ ("properties", JObj [ ("id", JInt 8) ]); ("geometry", JNull) ].

(** A feature that has neither [properties] nor [geometry]. *)
Definition bare_permit : json := JObj [].

(** ** Vocabulary for the writer's result *)

(** The records the writer can process: accepted by the normaliser, with an
    identifier that can be put in a set. *)
Definition writable (permit : json) : bool :=
  record_ok permit && hashable (field_or (properties_of permit) "id" (JStr "")).

(** The rows of [rs] whose identifier has not been seen, neither in [seen]
    nor earlier in [rs]. *)
Fixpoint first_seen (seen : list json) (rs : list row) : list row :=
  match rs with
  | [] => []
  | r :: rest =>
      if set_mem (permit_id r) seen
      then first_seen seen rest
      else r :: first_seen (permit_id r :: seen) rest
  end.

(** The rows of [rs] that carry the identifier [k]. *)
Definition rows_with_id (k : json) (rs : list row) : list row :=
  filter (fun r => key_eqb k (permit_id r)) rs.

(** [l1] is [l2] with some elements left out, the order kept. *)
Inductive subsequence {A : Type} : list A -> list A -> Prop :=
| sub_nil : subsequence [] []
| sub_skip (x : A) (l1 l2 : list A) : subsequence l1 l2 -> subsequence l1 (x :: l2)
| sub_keep (x : A) (l1 l2 : list A) : subsequence l1 l2 -> subsequence (x :: l1) (x :: l2).

Definition distinct_ids (a b : row) : Prop := key_eqb (permit_id a) (permit_id b) = false.

(** Two features without an identifier and a third with one. *)
Definition anonymous_permit (name : string) : json :=
  JObj [ ("properties", JObj [ ("fastighet", JStr name) ]) ].

Definition identified_permit (n : Z) (name : string) : json :=
  JObj [ ("properties", JObj [ ("id", JInt n); ("fastighet", JStr name) ]) ].

(** ** Sample servers and markers *)

Definition marker (id : json) : json := JObj [ ("properties", JObj [ ("id", id) ]) ].


(** A server that times out on the first request and answers 503 with an
    error page to every later one. *)
Definition mixed_outage_net : remote :=
  {| respond := fun history _ =>
       match history with
       | [] => exchange (NoResponse TimedOut)
       | _ :: _ => exchange (Response 503 Undecodable)
       end;
     latency := fun _ => (1 # 10)%Q;
     oversleep := fun _ => 0%Q |}.



(** A server that reports three permits but returns two markers, one of
    them with id 0, and that answers every detail request. *)
Definition sample_net : remote :=
  {| respond := fun _ req =>
       match req with
       | GetLocations _ _ _ _ _ _ =>
           Decoded (JObj [ ("count", JInt 3);
                           ("data", JObj [ ("features",
                                            JList [ marker (JInt 0); marker (JInt 5) ]) ]) ])
       | GetDetails id => Decoded (identified_permit 5 "Kv. Eken 5")
       end;
     latency := fun _ => (1 # 10)%Q;
     oversleep := fun _ => 0%Q |}.

(** A count as a rational. *)
Definition Qnat (n : nat) : Q := inject_Z (Z.of_nat n).

(** Three calls: the second follows at once, the third after half a
    second of other work; the last sleep overshoots by a tenth. *)
Definition sample_schedule : list (Q * Q) :=
  [ (0, 0); (0, 1 # 2); (1 # 10, 3) ]%Q.

(** ** Vocabulary for the crawl *)

(** [properties.get('id', '')] of a raw record, the key it is written
    under. *)
Definition record_id (permit : json) : json :=
  field_or (properties_of permit) "id" (JStr "").


(** The location request of a grid cell. *)
Definition cell_request (c : bbox) (window : Z) (types : list Z) : request :=
  GetLocations (lat_min c) (lat_max c) (lon_min c) (lon_max c) window types.

(** A server whose requests take no negative time and whose sleeps do not
    end early. *)
Definition calm (net : remote) : Prop :=
  forall n, (0 <= latency net n)%Q /\ (0 <= oversleep net n)%Q.

(** An outage: every exchange fails, each in its own way, whatever was
    sent before. *)
Definition outage (net : remote) : Prop :=
  forall history req, exists r, failed r = true /\ respond net history req = exchange r.

(** Two cells share at most border points: one ends where the other
    begins, in latitude or in longitude. *)
Definition apart (c1 c2 : bbox) : Prop :=
  (lat_max c1 <= lat_min c2 \/ lon_max c1 <= lon_min c2)%Q.

(** From [s] to [s'] the scraper only issued requests through the
    limiter: the stamp moved on by one interval per request, and the clock
    is at most one interval short of that. *)
Definition paced (s s' : state) : Prop :=
  rate_limit s' = rate_limit s /\
  (now s <= now s')%Q /\
  exists new,
    sent s' = (new ++ sent s)%list /\
    (new = [] -> last_request_time s' = last_request_time s) /\
    (new <> [] ->
     (last_request_time s' <= now s' /\
      last_request_time s + Qnat (List.length new) * rate_limit s <= last_request_time s' /\
      now s + Qnat (List.length new) * rate_limit s
        <= last_request_time s' + rate_limit s)%Q).

(** ** The scripts that drive the scraper *)

(** [main()] of the scraper module: one box over Stockholm, saved when
    something came back.  [t] is the clock when the scraper is created and
    [stamp] the formatted [datetime.now()] of the file name.  What the
    scripts print is not modelled. *)
Definition main (net : remote) (t : Q) (stamp : string) (fs : filesystem)
  : result filesystem * state :=
  match scrape_bounding_box net (296 # 5) (119 # 2) (89 # 5) (91 # 5) 30 [0; 1; 2; 3] true
          (new_scraper 1 t) with
  | (Ok permits, s) =>
      if truthy permits then
        (match py_iter permits with
         | Ok items => save_to_csv items ("bygglov_data_" ++ stamp ++ ".csv") fs
         | Raise e => Raise e
         end, s)
      else (Ok fs, s)
  | (Raise e, s) => (Raise e, s)
  end.

(** A crawl followed by [save_to_csv(all_permits, output_file)]. *)
Definition crawl_and_save (crawl : M (list json)) (t : Q) (output_file : string)
    (fs : filesystem) : result filesystem * state :=
  match crawl (new_scraper 1 t) with
  | (Ok all_permits, s) => (save_to_csv all_permits output_file fs, s)
  | (Raise e, s) => (Raise e, s)
  end.

(** The whole of [scrape_stockholm_complete()], crawl and save. *)
Definition scrape_stockholm_full (net : remote) (fuel : nat) (t : Q) (stamp : string)
    (fs : filesystem) : option (result filesystem * state) :=
  match scrape_stockholm_complete net fuel with
  | Some crawl =>
      Some (crawl_and_save crawl t ("bygglov_stockholm_complete_" ++ stamp ++ ".csv") fs)
  | None => None
  end.

(** The script [scrape_sweden_all.py]. *)
Definition scrape_sweden_all (net : remote) (fuel : nat) (t : Q) (stamp : string)
    (fs : filesystem) : option (result filesystem * state) :=
  match scrape_sweden net fuel 30 [0; 1; 2; 3] 2 true with
  | Some crawl =>
      Some (crawl_and_save crawl t ("bygglov_sweden_complete_" ++ stamp ++ ".csv") fs)
  | None => None
  end.

(** The script [count_sweden.py]: the number it reports. *)
Definition count_sweden (net : remote) (t : Q) : result nat * state :=
  match get_locations net 55 69 (21 # 2) (49 # 2) 30 [0; 1; 2; 3] (new_scraper 1 t) with
  | (Ok locations, s) => (py_len locations, s)
  | (Raise e, s) => (Raise e, s)
  end.

(** A server that answers the location query with [count] 150 and two
    markers, and every detail request with the permit of that id. *)
Definition truncating_net : remote :=
  {| respond := fun _ req =>
       match req with
       | GetLocations _ _ _ _ _ _ =>
           Decoded (JObj [ ("count", JInt 150);
                           ("data", JObj [ ("features",
                                            JList [ marker (JInt 5); marker (JInt 6) ]) ]) ])
       | GetDetails (JInt n) => Decoded (identified_permit n "Kv. Eken")
       | GetDetails _ => Decoded (JObj [])
       end;
     latency := fun _ => (1 # 10)%Q;
     oversleep := fun _ => 0%Q |}.

(** A point feature with the given coordinates. *)
Definition point_permit (coords : list json) : json :=
  JObj [ ("properties", JObj [ ("id", JInt 9) ]);
         ("geometry", JObj [ ("type", JStr "Point"); ("coordinates", JList coords) ]) ].

(** ** Facts about the Python primitives *)

Lemma py_add_num (a b : json) (x y : Q) :
  num_of a = Some x -> num_of b = Some y ->
  exists r z, py_add a b = Ok r /\ num_of r = Some z /\ (z == x + y)%Q.
Proof.
  intros Ha Hb.
  destruct a; simpl in Ha; try discriminate;
    destruct b; simpl in Hb; try discriminate;
    injection Ha as <-; injection Hb as <-; cbn [py_add int_of num_of];
    eexists; eexists; (split; [reflexivity|]); cbn [num_of]; (split; [reflexivity|]);
    try apply Qred_correct;
    try (rewrite inject_Z_plus; try destruct b; try destruct b0; reflexivity).
Qed.

Lemma sum_component_num (i : nat) (vs : list json) :
  forall (acc : json) (qa : Q),
    num_of acc = Some qa ->
    Forall (fun v => coord_of i v <> None) vs ->
    exists r qr, sum_component i vs acc = Ok r /\ num_of r = Some qr /\
                 (qr == qa + Qsum (map (component i) vs))%Q.
Proof.
  induction vs as [|v vs IH]; intros acc qa Hacc Hall.
  - exists acc, qa. simpl. repeat split; auto. ring.
  - inversion Hall as [|? ? Hv Hvs]; subst.
    unfold component at 1. simpl.
    destruct v; simpl in Hv; try congruence.
    unfold coord_of. simpl.
    destruct (nth_error l i) as [x|] eqn:Hx; [|congruence].
    destruct (num_of x) as [qx|] eqn:Hqx; [|congruence].
    simpl.
    destruct (py_add_num acc x qa qx Hacc Hqx) as (r & z & Hadd & Hz & Hzq).
    rewrite Hadd. simpl.
    destruct (IH r z Hz Hvs) as (r' & q' & Hsum & Hq' & Heq).
    exists r', q'. repeat split; auto.
    rewrite Heq, Hzq. unfold component, coord_of. ring.
Qed.

Lemma vertex_ok_coord (v : json) :
  vertex_ok v = true -> coord_of 0 v <> None /\ coord_of 1 v <> None.
Proof.
  unfold vertex_ok.
  destruct (coord_of 0 v), (coord_of 1 v); intros H; try discriminate; split; congruence.
Qed.

Lemma forallb_vertex_ok (vs : list json) :
  forallb vertex_ok vs = true ->
  Forall (fun v => coord_of 0 v <> None) vs /\ Forall (fun v => coord_of 1 v <> None) vs.
Proof.
  induction vs as [|v vs IH]; simpl; intros H.
  - split; constructor.
  - apply andb_prop in H as [Hv Hvs].
    destruct (vertex_ok_coord v Hv), (IH Hvs). split; constructor; auto.
Qed.

(** The polygon branch on a non-empty list of usable vertices. *)
Lemma polygon_branch (g : list (string * json)) (v : json) (vs rings : list json) :
  field_or g "type" JNull = JStr "Polygon" ->
  field_or g "coordinates" (JList []) = JList (JList (v :: vs) :: rings) ->
  forallb vertex_ok (v :: vs) = true ->
  exists lon lat,
    extract_coordinates (JObj g) = Ok (JFloat lon, JFloat lat) /\
    (lon == mean (map (component 0) (v :: vs)))%Q /\
    (lat == mean (map (component 1) (v :: vs)))%Q.
Proof.
  intros Ht Hc Hok.
  destruct (forallb_vertex_ok _ Hok) as [H0 H1].
  destruct (sum_component_num 0 (v :: vs) (JInt 0) (inject_Z 0) eq_refl H0)
    as (sx & qx & Hsx & Hqx & Hx).
  destruct (sum_component_num 1 (v :: vs) (JInt 0) (inject_Z 0) eq_refl H1)
    as (sy & qy & Hsy & Hqy & Hy).
  unfold extract_coordinates, dict_get. fold (field_or g "coordinates" (JList [])).
  fold (field_or g "type" JNull). rewrite Ht, Hc.
  cbn [rbind eq_str truthy andb String.eqb Ascii.eqb Bool.eqb getitem nth_error py_iter py_len].
  rewrite Hsx. cbn [rbind]. unfold py_truediv at 1. rewrite Hqx.
  cbn [List.length rbind]. rewrite Hsy. cbn [rbind]. unfold py_truediv. rewrite Hqy.
  cbn [rbind].
  eexists; eexists; split; [reflexivity|].
  unfold mean. rewrite !length_map. cbn [List.length].
  split; rewrite Qred_correct; [rewrite Hx | rewrite Hy];
    change (inject_Z 0) with 0%Q; rewrite Qplus_0_l; reflexivity.
Qed.

Lemma extract_coordinates_ok (geometry : json) :
  geometry_ok geometry = true ->
  exists lon lat, extract_coordinates geometry = Ok (lon, lat).
Proof.
  destruct geometry as [| | | | | |g]; simpl; try discriminate.
  unfold extract_coordinates, dict_get.
  fold (field_or g "coordinates" (JList [])). fold (field_or g "type" JNull).
  cbn [rbind].
  destruct (eq_str (field_or g "type" JNull) "Polygon" &&
            truthy (field_or g "coordinates" (JList []))) eqn:Hpoly.
  - apply andb_prop in Hpoly as [Hty Htr]. rewrite Htr.
    destruct (field_or g "coordinates" (JList [])) as [| | | | |[|ring rings]|];
      try discriminate.
    cbn [getitem nth_error rbind]. unfold ring_ok.
    destruct (truthy ring) eqn:Hring; [|intros _; eauto].
    destruct ring as [| | | | |vs|]; try discriminate.
    destruct vs as [|v vs]; [discriminate|]. intros Hok.
    destruct (forallb_vertex_ok _ Hok) as [H0 H1].
    destruct (sum_component_num 0 (v :: vs) (JInt 0) (inject_Z 0) eq_refl H0)
      as (sx & qx & Hsx & Hqx & _).
    destruct (sum_component_num 1 (v :: vs) (JInt 0) (inject_Z 0) eq_refl H1)
      as (sy & qy & Hsy & Hqy & _).
    cbn [py_iter py_len rbind]. rewrite Hsx. cbn [rbind].
    unfold py_truediv at 1. rewrite Hqx. cbn [List.length rbind].
    rewrite Hsy. cbn [rbind]. unfold py_truediv. rewrite Hqy. cbn [rbind]. eauto.
  - destruct (eq_str (field_or g "type" JNull) "Point"); [|intros _; eauto].
    destruct (field_or g "coordinates" (JList [])) as [| | | |s|l|kvs];
      try discriminate; intros Hok; cbn [py_len rbind].
    + destruct (2 <=? String.length s)%nat eqn:Hlen; [|eauto].
      destruct s as [|c1 [|c2 s]]; try discriminate. cbn. eauto.
    + destruct (2 <=? List.length l)%nat eqn:Hlen; [|eauto].
      destruct l as [|x [|y l]]; try discriminate. cbn. eauto.
    + destruct (2 <=? List.length kvs)%nat eqn:Hlen; [|eauto].
      apply Nat.ltb_lt in Hok. apply Nat.leb_le in Hlen. lia.
Qed.

(** On an acceptable record the normaliser returns the row spelled out
    here: every property with its default, the label of the type code and
    the pair computed from the geometry. *)
Lemma extract_permit_data_ok (permit : json) :
  record_ok permit = true ->
  exists lon lat label,
    extract_coordinates (JObj (geometry_of permit)) = Ok (lon, lat) /\
    PERMIT_TYPES_get (field_or (properties_of permit) "typ_num" (JInt (-1))) "Unknown"
      = Ok label /\
    extract_permit_data permit =
      Ok {| permit_id := field_or (properties_of permit) "id" (JStr "");
            property_name := field_or (properties_of permit) "fastighet" (JStr "");
            municipal_case_id := field_or (properties_of permit) "kun_id" (JStr "");
            publication_date := field_or (properties_of permit) "pubdate" (JStr "");
            municipality := field_or (properties_of permit) "subtext" (JStr "");
            permit_type_num := field_or (properties_of permit) "typ_num" (JInt (-1));
            permit_type := label;
            longitude := lon;
            latitude := lat |}.
Proof.
  destruct permit as [| | | | | |p]; simpl; try discriminate.
  unfold extract_permit_data, dict_get.
  fold (field_or p "properties" (JObj [])). fold (field_or p "geometry" (JObj [])).
  destruct (field_or p "properties" (JObj [])) as [| | | | | |props]; try discriminate.
  intros H. apply andb_prop in H as [Hhash Hgeo].
  destruct (extract_coordinates_ok _ Hgeo) as (lon & lat & Hll).
  destruct (field_or p "geometry" (JObj [])) as [| | | | | |g]; try discriminate.
  cbn [rbind]. rewrite Hll. cbn [rbind fst snd].
  repeat match goal with
         | |- context [match assoc ?k props with Some v => v | None => ?d end] =>
             fold (field_or props k d)
         end.
  unfold PERMIT_TYPES_get. rewrite Hhash. cbn [rbind].
  exists lon, lat. eexists. repeat split; reflexivity.
Qed.

Lemma key_eqb_int (a b : Z) : key_eqb (JInt a) (JInt b) = (a =? b).
Proof.
  unfold key_eqb, num_of, Qeq_bool, inject_Z. cbn [Qnum Qden].
  now rewrite !Z.mul_1_r.
Qed.

Lemma PERMIT_TYPES_get_int (code : Z) :
  PERMIT_TYPES_get (JInt code) "Unknown" = Ok (permit_type_label code).
Proof.
  unfold PERMIT_TYPES_get, PERMIT_TYPES, table_find, hashable.
  rewrite !key_eqb_int.
  destruct (code =? 0) eqn:H0; [apply Z.eqb_eq in H0; now subst|].
  destruct (code =? 1) eqn:H1; [apply Z.eqb_eq in H1; now subst|].
  destruct (code =? 2) eqn:H2; [apply Z.eqb_eq in H2; now subst|].
  destruct (code =? 3) eqn:H3; [apply Z.eqb_eq in H3; now subst|].
  apply Z.eqb_neq in H0, H1, H2, H3.
  destruct code as [|[p|p|]|]; try reflexivity; try congruence;
    destruct p; try reflexivity; congruence.
Qed.

Lemma permit_type_label_other (code : Z) :
  code < 0 \/ 3 < code -> permit_type_label code = "Unknown".
Proof.
  intros H. destruct code as [|[p|p|]|]; try reflexivity; try lia;
    destruct p; try reflexivity; lia.
Qed.

(** Outside the two recognised branches both coordinates are [None]. *)
Lemma no_coordinates (g : list (string * json)) :
  geometry_ok (JObj g) = true ->
  (eq_str (field_or g "type" JNull) "Polygon" = false /\
   eq_str (field_or g "type" JNull) "Point" = false) \/
  truthy (field_or g "coordinates" (JList [])) = false ->
  extract_coordinates (JObj g) = Ok (JNull, JNull).
Proof.
  intros Hok H. unfold extract_coordinates, dict_get. unfold geometry_ok in Hok.
  fold (field_or g "coordinates" (JList [])). fold (field_or g "type" JNull).
  cbn [rbind].
  destruct H as [[Hpoly Hpoint]|Hfalsy].
  - rewrite Hpoly, Hpoint. reflexivity.
  - rewrite Hfalsy in *. rewrite andb_false_r in *.
    destruct (eq_str (field_or g "type" JNull) "Point"); [|reflexivity].
    destruct (field_or g "coordinates" (JList [])) as [| | | |s|l|kvs];
      try discriminate.
    + destruct s; [reflexivity|discriminate].
    + destruct l; [reflexivity|discriminate].
    + destruct kvs; [reflexivity|discriminate].
Qed.

Lemma record_ok_geometry (permit : json) :
  record_ok permit = true -> geometry_ok (JObj (geometry_of permit)) = true.
Proof.
  destruct permit as [| | | | | |p]; simpl; try discriminate.
  destruct (field_or p "properties" (JObj [])); try discriminate.
  intros H. apply andb_prop in H as [_ H].
  destruct (field_or p "geometry" (JObj [])); try discriminate. exact H.
Qed.

(** ** The record normaliser: claims C8, C7 and C3 *)

(** C8.  On every record that the normaliser accepts, the type code is
    copied to [permit_type_num] and mapped through the fixed table: 0 to
    Bygglov, 1 to Rivningslov, 2 to Marklov, 3 to Förhandsbesked and any
    other integer to Unknown; when [properties.typ_num] is absent the code
    is -1 and the label Unknown. *)
Theorem permit_type_mapping (permit : json) :
  record_ok permit = true ->
  exists r,
    extract_permit_data permit = Ok r /\
    (forall code,
        assoc "typ_num" (properties_of permit) = Some (JInt code) ->
        permit_type_num r = JInt code /\
        permit_type r = permit_type_label code /\
        (code = 0 -> permit_type r = "Bygglov") /\
        (code = 1 -> permit_type r = "Rivningslov") /\
        (code = 2 -> permit_type r = "Marklov") /\
        (code = 3 -> permit_type r =
           Forhandsbesked) /\
        (code < 0 \/ 3 < code -> permit_type r = "Unknown")) /\
    (assoc "typ_num" (properties_of permit) = None ->
     permit_type_num r = JInt (-1) /\ permit_type r = "Unknown").
Proof.
  intros Hok.
  destruct (extract_permit_data_ok permit Hok) as (lon & lat & label & _ & Hlabel & Hrow).
  eexists. split; [exact Hrow|]. cbn [permit_type_num permit_type].
  unfold field_or in Hlabel |- *. split.
  - intros code Hcode. rewrite Hcode in Hlabel |- *.
    rewrite PERMIT_TYPES_get_int in Hlabel. injection Hlabel as <-.
    repeat split; try (intros ->; reflexivity).
    apply permit_type_label_other.
  - intros Hnone. rewrite Hnone in Hlabel |- *.
    rewrite PERMIT_TYPES_get_int in Hlabel. injection Hlabel as <-.
    split; reflexivity.
Qed.

Lemma permit_type_mapping_witness :
  record_ok square_permit = true /\
  exists r,
    extract_permit_data square_permit = Ok r /\
    (forall code,
        assoc "typ_num" (properties_of square_permit) = Some (JInt code) ->
        permit_type_num r = JInt code /\
        permit_type r = permit_type_label code /\
        (code = 0 -> permit_type r = "Bygglov") /\
        (code = 1 -> permit_type r = "Rivningslov") /\
        (code = 2 -> permit_type r = "Marklov") /\
        (code = 3 -> permit_type r =
           Forhandsbesked) /\
        (code < 0 \/ 3 < code -> permit_type r = "Unknown")) /\
    (assoc "typ_num" (properties_of square_permit) = None ->
     permit_type_num r = JInt (-1) /\ permit_type r = "Unknown").
Proof.
  split; [reflexivity | apply (permit_type_mapping square_permit); reflexivity].
Defined.

(** C7.  On every accepted record whose geometry has type Polygon and
    whose first ring is a non-empty list of vertices, the normaliser
    returns as longitude the arithmetic mean of the vertices' first
    coordinates and as latitude the mean of their second coordinates, all
    vertices of the ring counted. *)
Theorem polygon_centroid_is_vertex_mean
    (permit v : json) (vs rings : list json) :
  record_ok permit = true ->
  field_or (geometry_of permit) "type" JNull = JStr "Polygon" ->
  field_or (geometry_of permit) "coordinates" (JList []) = JList (JList (v :: vs) :: rings) ->
  exists r lon lat,
    extract_permit_data permit = Ok r /\
    longitude r = JFloat lon /\
    latitude r = JFloat lat /\
    (lon == mean (map (component 0) (v :: vs)))%Q /\
    (lat == mean (map (component 1) (v :: vs)))%Q.
Proof.
  intros Hok Hty Hco.
  destruct (extract_permit_data_ok permit Hok) as (lon & lat & label & Hll & _ & Hrow).
  pose proof (record_ok_geometry permit Hok) as Hgeo.
  assert (Hvs : forallb vertex_ok (v :: vs) = true).
  { unfold geometry_ok in Hgeo. rewrite Hty, Hco in Hgeo. exact Hgeo. }
  destruct (polygon_branch _ v vs rings Hty Hco Hvs) as (qlon & qlat & Hb & Hmx & Hmy).
  rewrite Hb in Hll. injection Hll as <- <-.
  eexists. exists qlon, qlat. split; [exact Hrow|]. cbn [longitude latitude].
  repeat split; assumption.
Qed.

Lemma polygon_centroid_is_vertex_mean_witness :
  record_ok square_permit = true /\
  field_or (geometry_of square_permit) "type" JNull = JStr "Polygon" /\
  exists r lon lat,
    extract_permit_data square_permit = Ok r /\
    longitude r = JFloat lon /\
    latitude r = JFloat lat /\
    (lon == mean (map (component 0) [vertex 0 0; vertex 2 0; vertex 2 2; vertex 0 2]))%Q /\
    (lat == mean (map (component 1) [vertex 0 0; vertex 2 0; vertex 2 2; vertex 0 2]))%Q.
Proof.
  split; [reflexivity|]. split; [reflexivity|].
  apply (polygon_centroid_is_vertex_mean square_permit (vertex 0 0)
           [vertex 2 0; vertex 2 2; vertex 0 2] []); reflexivity.
Defined.

(** The square of the specification: the normalised pair is (1, 1). *)
Example square_centroid :
  exists r, extract_permit_data square_permit = Ok r /\
            longitude r = JFloat 1 /\ latitude r = JFloat 1.
Proof. eexists. repeat split. Qed.

(** C3.  The normaliser is not total: it raises [IndexError] on a polygon
    whose vertex lacks its second coordinate and [AttributeError] on a
    feature whose [geometry] member is [null], where the claim has it
    return a row with null coordinates. *)
Lemma normalizer_raises_on_malformed_geometry :
  extract_permit_data short_vertex_permit = Raise IndexError /\
  extract_permit_data null_geometry_permit = Raise AttributeError.
Proof. split; reflexivity. Qed.

(** Where the normaliser does return.  It is a function of its argument
    alone, and on every accepted record (a dict whose [properties] and [geometry],
    when present, are dicts, whose type code is hashable and whose
    coordinates fit the geometry type) it returns a row: each property that
    is missing is the empty string, the missing type code is -1, and the
    coordinates are both null when the geometry type is neither Polygon nor
    Point (a missing geometry included) or when there are no coordinates. *)
Theorem normalizer_total_on_accepted_records (permit : json) :
  record_ok permit = true ->
  exists r,
    extract_permit_data permit = Ok r /\
    permit_id r = field_or (properties_of permit) "id" (JStr "") /\
    property_name r = field_or (properties_of permit) "fastighet" (JStr "") /\
    municipal_case_id r = field_or (properties_of permit) "kun_id" (JStr "") /\
    publication_date r = field_or (properties_of permit) "pubdate" (JStr "") /\
    municipality r = field_or (properties_of permit) "subtext" (JStr "") /\
    permit_type_num r = field_or (properties_of permit) "typ_num" (JInt (-1)) /\
    ((eq_str (field_or (geometry_of permit) "type" JNull) "Polygon" = false /\
      eq_str (field_or (geometry_of permit) "type" JNull) "Point" = false) \/
     truthy (field_or (geometry_of permit) "coordinates" (JList [])) = false ->
     longitude r = JNull /\ latitude r = JNull).
Proof.
  intros Hok.
  destruct (extract_permit_data_ok permit Hok) as (lon & lat & label & Hll & _ & Hrow).
  eexists. split; [exact Hrow|].
  cbn [permit_id property_name municipal_case_id publication_date municipality
       permit_type_num longitude latitude].
  repeat (split; [reflexivity|]).
  intros Hnone.
  rewrite (no_coordinates _ (record_ok_geometry permit Hok) Hnone) in Hll.
  injection Hll as <- <-. split; reflexivity.
Qed.

Lemma normalizer_total_on_accepted_records_witness :
  record_ok bare_permit = true /\
  exists r,
    extract_permit_data bare_permit = Ok r /\
    permit_id r = JStr "" /\
    property_name r = JStr "" /\
    municipal_case_id r = JStr "" /\
    publication_date r = JStr "" /\
    municipality r = JStr "" /\
    permit_type_num r = JInt (-1) /\
    ((eq_str (field_or (geometry_of bare_permit) "type" JNull) "Polygon" = false /\
      eq_str (field_or (geometry_of bare_permit) "type" JNull) "Point" = false) \/
     truthy (field_or (geometry_of bare_permit) "coordinates" (JList [])) = false ->
     longitude r = JNull /\ latitude r = JNull).
Proof.
  split; [reflexivity | apply (normalizer_total_on_accepted_records bare_permit); reflexivity].
Defined.

(** ** Identifiers as set members *)

Lemma key_eqb_refl (a : json) : hashable a = true -> key_eqb a a = true.
Proof.
  destruct a; simpl; try discriminate; intros _; unfold key_eqb; simpl;
    try apply Qeq_bool_refl; try reflexivity.
  apply String.eqb_refl.
Qed.

Lemma Qeq_bool_comm (x y : Q) : Qeq_bool x y = Qeq_bool y x.
Proof.
  destruct (Qeq_bool x y) eqn:H.
  - symmetry. now apply Qeq_bool_sym.
  - destruct (Qeq_bool y x) eqn:H'; [|reflexivity].
    apply Qeq_bool_sym in H'. congruence.
Qed.

Lemma key_eqb_sym (a b : json) : key_eqb a b = key_eqb b a.
Proof.
  unfold key_eqb.
  destruct (num_of a) as [x|] eqn:Ha, (num_of b) as [y|] eqn:Hb; try reflexivity.
  - apply Qeq_bool_comm.
  - destruct a, b; try reflexivity. apply String.eqb_sym.
Qed.

Lemma key_eqb_trans (a b c : json) :
  key_eqb a b = true -> key_eqb b c = true -> key_eqb a c = true.
Proof.
  unfold key_eqb.
  destruct (num_of a) as [x|] eqn:Ha, (num_of b) as [y|] eqn:Hb,
           (num_of c) as [z|] eqn:Hc; try discriminate.
  - apply Qeq_bool_trans.
  - destruct a, b; try discriminate; destruct c; try discriminate; try reflexivity.
    intros H1 H2. apply String.eqb_eq in H1, H2. subst. apply String.eqb_refl.
Qed.

Lemma key_eqb_compat (a b x : json) :
  key_eqb a b = true -> key_eqb a x = key_eqb b x.
Proof.
  intros Hab.
  destruct (key_eqb a x) eqn:Hax, (key_eqb b x) eqn:Hbx; try reflexivity.
  - rewrite key_eqb_sym in Hab. rewrite (key_eqb_trans _ _ _ Hab Hax) in Hbx. discriminate.
  - rewrite (key_eqb_trans _ _ _ Hab Hbx) in Hax. discriminate.
Qed.

Lemma set_mem_compat (a b : json) (seen : list json) :
  key_eqb a b = true -> set_mem a seen = set_mem b seen.
Proof.
  intros Hab. unfold set_mem.
  induction seen as [|x seen IH]; simpl; [reflexivity|].
  now rewrite IH, (key_eqb_compat a b x Hab).
Qed.

(** ** The duplicate-removing loop *)

Lemma dedup_loop_first_seen (cleaned : list row) :
  forall seen unique,
    Forall (fun r => hashable (permit_id r) = true) cleaned ->
    dedup_loop cleaned seen unique = Ok (unique ++ first_seen seen cleaned)%list.
Proof.
  induction cleaned as [|r rest IH]; intros seen unique Hall; simpl.
  - now rewrite app_nil_r.
  - inversion Hall as [|? ? Hr Hrest]; subst. rewrite Hr.
    destruct (set_mem (permit_id r) seen); simpl.
    + now apply IH.
    + rewrite IH by assumption. now rewrite <- app_assoc.
Qed.

Lemma first_seen_subsequence (rs : list row) :
  forall seen, subsequence (first_seen seen rs) rs.
Proof.
  induction rs as [|r rest IH]; intros seen; simpl.
  - constructor.
  - destruct (set_mem (permit_id r) seen); constructor; apply IH.
Qed.

Lemma subsequence_In {A : Type} (l1 l2 : list A) :
  subsequence l1 l2 -> forall x, In x l1 -> In x l2.
Proof.
  induction 1; intros y Hy; simpl in *; auto.
  destruct Hy as [->|Hy]; auto.
Qed.

Lemma first_seen_not_seen (rs : list row) :
  forall seen r, In r (first_seen seen rs) -> set_mem (permit_id r) seen = false.
Proof.
  induction rs as [|r0 rest IH]; intros seen r Hin; simpl in Hin; [contradiction|].
  destruct (set_mem (permit_id r0) seen) eqn:Hm.
  - now apply IH.
  - destruct Hin as [->|Hin]; [assumption|].
    apply IH in Hin. simpl in Hin. now apply orb_false_elim in Hin.
Qed.

Lemma first_seen_none (rs : list row) :
  forall seen k, set_mem k seen = true -> rows_with_id k (first_seen seen rs) = [].
Proof.
  induction rs as [|r0 rest IH]; intros seen k Hk; simpl; [reflexivity|].
  destruct (set_mem (permit_id r0) seen) eqn:Hm.
  - now apply IH.
  - unfold rows_with_id. simpl.
    destruct (key_eqb k (permit_id r0)) eqn:Hk0.
    + rewrite (set_mem_compat _ _ seen Hk0) in Hk. congruence.
    + apply IH. simpl. now rewrite Hk, orb_true_r.
Qed.

(** Of the rows that carry an identifier not seen before, exactly the
    first one survives. *)
Lemma first_seen_one (rs : list row) :
  forall seen k,
    set_mem k seen = false ->
    (exists r, In r rs /\ key_eqb k (permit_id r) = true) ->
    exists pre u post,
      rs = (pre ++ u :: post)%list /\
      key_eqb k (permit_id u) = true /\
      (forall x, In x pre -> key_eqb k (permit_id x) = false) /\
      rows_with_id k (first_seen seen rs) = [u].
Proof.
  induction rs as [|r0 rest IH]; intros seen k Hk (r & Hin & Hr); [contradiction|].
  simpl. destruct (key_eqb k (permit_id r0)) eqn:Hk0.
  - exists [], r0, rest. rewrite <- (set_mem_compat _ _ seen Hk0), Hk.
    repeat split; auto; [intros x []|].
    unfold rows_with_id. simpl. rewrite Hk0. f_equal.
    apply first_seen_none. simpl. now rewrite Hk0.
  - destruct Hin as [->|Hin]; [congruence|].
    assert (Hex : exists r, In r rest /\ key_eqb k (permit_id r) = true) by eauto.
    destruct (set_mem (permit_id r0) seen) eqn:Hm.
    + destruct (IH seen k Hk Hex) as (pre & u & post & -> & Hu & Hpre & Hrows).
      exists (r0 :: pre), u, post. repeat split; auto.
      intros x [<-|Hx]; auto.
    + assert (Hk' : set_mem k (permit_id r0 :: seen) = false).
      { simpl. now rewrite Hk0, Hk. }
      destruct (IH _ k Hk' Hex) as (pre & u & post & -> & Hu & Hpre & Hrows).
      exists (r0 :: pre), u, post. repeat split; auto.
      * intros x [<-|Hx]; auto.
      * unfold rows_with_id in *. simpl. now rewrite Hk0.
Qed.

Lemma first_seen_distinct (rs : list row) :
  forall seen, ForallOrdPairs distinct_ids (first_seen seen rs).
Proof.
  induction rs as [|r0 rest IH]; intros seen; simpl; [constructor|].
  destruct (set_mem (permit_id r0) seen); [apply IH|].
  constructor; [|apply IH].
  apply Forall_forall. intros r Hr. apply first_seen_not_seen in Hr.
  simpl in Hr. apply orb_false_elim in Hr as [Hr _].
  unfold distinct_ids. now rewrite key_eqb_sym.
Qed.

Lemma clean_all_ok (permits : list json) :
  Forall (fun p => writable p = true) permits ->
  exists cleaned,
    clean_all permits = Ok cleaned /\
    Forall2 (fun p r => extract_permit_data p = Ok r) permits cleaned /\
    Forall (fun r => hashable (permit_id r) = true) cleaned.
Proof.
  induction 1 as [|p rest Hp Hrest (cleaned & Hc & H2 & Hh)].
  - exists []. repeat split; constructor.
  - apply andb_prop in Hp as [Hok Hid].
    destruct (extract_permit_data_ok p Hok) as (lon & lat & label & _ & _ & Hrow).
    eexists (_ :: cleaned). simpl. rewrite Hrow, Hc. simpl.
    repeat split; constructor; auto.
Qed.

(** What the writer does with a non-empty list of writable records. *)
Lemma save_to_csv_writes (permits : list json) (output_file : string) (fs : filesystem) :
  permits <> [] ->
  Forall (fun p => writable p = true) permits ->
  exists cleaned,
    Forall2 (fun p r => extract_permit_data p = Ok r) permits cleaned /\
    Forall (fun r => hashable (permit_id r) = true) cleaned /\
    save_to_csv permits output_file fs =
      Ok (write_file output_file
            {| header := fieldnames; rows := first_seen [] cleaned |} fs).
Proof.
  intros Hne Hall.
  destruct (clean_all_ok permits Hall) as (cleaned & Hc & H2 & Hh).
  exists cleaned. repeat split; auto.
  unfold save_to_csv. destruct permits as [|p rest]; [congruence|].
  rewrite Hc. cbn [rbind]. rewrite dedup_loop_first_seen by assumption.
  reflexivity.
Qed.

Lemma key_eqb_str (s : string) (v : json) : key_eqb (JStr s) v = true -> v = JStr s.
Proof.
  unfold key_eqb. simpl. destruct v; simpl; try discriminate.
  intros H. apply String.eqb_eq in H. now subst.
Qed.

Lemma Forall2_In_l {A B : Type} (R : A -> B -> Prop) (l1 : list A) (l2 : list B) :
  Forall2 R l1 l2 -> forall a, In a l1 -> exists b, In b l2 /\ R a b.
Proof.
  induction 1 as [|x y l1 l2 Hxy H IH]; intros a Ha; [contradiction|].
  destruct Ha as [<-|Ha].
  - exists y. split; [now left|assumption].
  - destruct (IH a Ha) as (b & Hb & Hab). exists b. split; [now right|assumption].
Qed.

Lemma missing_id_is_empty_string (permit : json) (r : row) :
  assoc "id" (properties_of permit) = None ->
  extract_permit_data permit = Ok r ->
  permit_id r = JStr "".
Proof.
  intros Hnone. unfold extract_permit_data, dict_get.
  destruct permit as [| | | | | |p]; try discriminate. cbn [rbind].
  simpl in Hnone. unfold field_or in Hnone.
  destruct (assoc "properties" p) as [[| | | | | |props]|]; try discriminate; cbn [rbind];
    destruct (match assoc "geometry" p with Some v => v | None => JObj [] end);
    try discriminate; cbn [rbind];
    destruct (extract_coordinates _); try discriminate; cbn [rbind];
    destruct (PERMIT_TYPES_get _ _); try discriminate; cbn [rbind];
    intros H; injection H as <-; cbn [permit_id]; try rewrite Hnone; reflexivity.
Qed.

(** ** The writer: claims C1, C2 and C9 *)

(** C1.  For every non-empty sequence of writable records the writer
    normalises each record, and the file it writes holds, in input order,
    exactly the first row of each permit_id: for every input row the rows
    of the file with that row's permit_id are the single row [u], and [u] is
    the first input row with that permit_id. *)
Theorem writer_keeps_first_occurrence
    (permits : list json) (output_file : string) (fs : filesystem) :
  permits <> [] ->
  Forall (fun p => writable p = true) permits ->
  exists cleaned unique,
    Forall2 (fun p r => extract_permit_data p = Ok r) permits cleaned /\
    save_to_csv permits output_file fs =
      Ok (write_file output_file {| header := fieldnames; rows := unique |} fs) /\
    subsequence unique cleaned /\
    forall r, In r cleaned ->
      exists pre u post,
        cleaned = (pre ++ u :: post)%list /\
        key_eqb (permit_id r) (permit_id u) = true /\
        (forall x, In x pre -> key_eqb (permit_id r) (permit_id x) = false) /\
        rows_with_id (permit_id r) unique = [u].
Proof.
  intros Hne Hall.
  destruct (save_to_csv_writes permits output_file fs Hne Hall) as (cleaned & H2 & Hh & Hsave).
  exists cleaned, (first_seen [] cleaned).
  repeat split; auto using first_seen_subsequence.
  intros r Hr. apply first_seen_one; [reflexivity|].
  exists r. split; [assumption|].
  apply key_eqb_refl. rewrite Forall_forall in Hh. now apply Hh.
Qed.

Lemma writer_keeps_first_occurrence_witness :
  [identified_permit 7 "A"; identified_permit 8 "B"; identified_permit 7 "C"] <> [] /\
  Forall (fun p => writable p = true)
    [identified_permit 7 "A"; identified_permit 8 "B"; identified_permit 7 "C"] /\
  exists cleaned unique,
    Forall2 (fun p r => extract_permit_data p = Ok r)
      [identified_permit 7 "A"; identified_permit 8 "B"; identified_permit 7 "C"] cleaned /\
    save_to_csv [identified_permit 7 "A"; identified_permit 8 "B"; identified_permit 7 "C"]
      "out.csv" no_files =
      Ok (write_file "out.csv" {| header := fieldnames; rows := unique |} no_files) /\
    subsequence unique cleaned /\
    forall r, In r cleaned ->
      exists pre u post,
        cleaned = (pre ++ u :: post)%list /\
        key_eqb (permit_id r) (permit_id u) = true /\
        (forall x, In x pre -> key_eqb (permit_id r) (permit_id x) = false) /\
        rows_with_id (permit_id r) unique = [u].
Proof.
  split; [discriminate|]. split; [repeat constructor|].
  apply (writer_keeps_first_occurrence
           [identified_permit 7 "A"; identified_permit 8 "B"; identified_permit 7 "C"]
           "out.csv" no_files); [discriminate | repeat constructor].
Defined.

(** The rows written for the sample above: the second record with id 7 is
    gone, the first one stays. *)
Example duplicate_is_dropped :
  exists fs,
    save_to_csv [identified_permit 7 "A"; identified_permit 8 "B"; identified_permit 7 "C"]
      "out.csv" no_files = Ok fs /\
    option_map (fun f => map (fun r => (permit_id r, property_name r)) (rows f)) (fs "out.csv")
      = Some [(JInt 7, JStr "A"); (JInt 8, JStr "B")].
Proof. eexists. split; reflexivity. Qed.

(** C2, as stated, fails: called with no records the writer returns
    normally, it signals no error. *)
Lemma empty_input_raises_nothing :
  ~ raises (save_to_csv [] "out.csv" no_files).
Proof. intros [e He]. discriminate He. Qed.

(** C2, amended.  Called with an empty sequence the writer writes nothing
    and creates no file: it returns normally and the files are as they
    were. *)
Theorem empty_input_writes_nothing (output_file : string) (fs : filesystem) :
  save_to_csv [] output_file fs = Ok fs.
Proof. reflexivity. Qed.

(** C9.  The rows written have pairwise distinct permit_id values; a record
    without [properties.id] gets the empty string as permit_id; so when some
    record lacks an id, exactly one written row has the empty permit_id, and
    it is the first input row whose permit_id is empty. *)
Theorem written_ids_are_distinct
    (permits : list json) (output_file : string) (fs : filesystem) :
  permits <> [] ->
  Forall (fun p => writable p = true) permits ->
  exists cleaned unique,
    Forall2 (fun p r => extract_permit_data p = Ok r) permits cleaned /\
    save_to_csv permits output_file fs =
      Ok (write_file output_file {| header := fieldnames; rows := unique |} fs) /\
    ForallOrdPairs distinct_ids unique /\
    (forall p, In p permits -> assoc "id" (properties_of p) = None ->
       exists r, In r cleaned /\ extract_permit_data p = Ok r /\ permit_id r = JStr "") /\
    (List.length (rows_with_id (JStr "") unique) <= 1)%nat /\
    ((exists p, In p permits /\ assoc "id" (properties_of p) = None) ->
     exists pre u post,
       cleaned = (pre ++ u :: post)%list /\
       permit_id u = JStr "" /\
       (forall x, In x pre -> permit_id x <> JStr "") /\
       rows_with_id (JStr "") unique = [u]).
Proof.
  intros Hne Hall.
  destruct (save_to_csv_writes permits output_file fs Hne Hall) as (cleaned & H2 & Hh & Hsave).
  exists cleaned, (first_seen [] cleaned).
  assert (Hmiss : forall p, In p permits -> assoc "id" (properties_of p) = None ->
            exists r, In r cleaned /\ extract_permit_data p = Ok r /\ permit_id r = JStr "").
  { intros p Hp Hnone. destruct (Forall2_In_l _ _ _ H2 p Hp) as (r & Hr & Hpr).
    exists r. repeat split; auto. eapply missing_id_is_empty_string; eauto. }
  assert (Hone : (exists r, In r cleaned /\ key_eqb (JStr "") (permit_id r) = true) ->
            exists pre u post,
              cleaned = (pre ++ u :: post)%list /\
              permit_id u = JStr "" /\
              (forall x, In x pre -> permit_id x <> JStr "") /\
              rows_with_id (JStr "") (first_seen [] cleaned) = [u]).
  { intros Hex.
    destruct (first_seen_one cleaned [] (JStr "") eq_refl Hex)
      as (pre & u & post & Hsplit & Hu & Hpre & Hrows).
    exists pre, u, post. repeat split; auto.
    - now apply key_eqb_str in Hu.
    - intros x Hx Heq. apply Hpre in Hx. rewrite Heq in Hx. discriminate Hx. }
  repeat split; auto using first_seen_distinct.
  - destruct (rows_with_id (JStr "") cleaned) as [|r0 l] eqn:Hrows.
    + assert (Hnil : rows_with_id (JStr "") (first_seen [] cleaned) = []).
      { destruct (rows_with_id (JStr "") (first_seen [] cleaned)) as [|u l] eqn:Hu;
          [reflexivity|].
        assert (Hin : In u (rows_with_id (JStr "") (first_seen [] cleaned)))
          by (rewrite Hu; now left).
        apply filter_In in Hin as [Hin Hk].
        apply (subsequence_In _ _ (first_seen_subsequence cleaned [])) in Hin.
        assert (Hin' : In u (rows_with_id (JStr "") cleaned))
          by (apply filter_In; auto).
        rewrite Hrows in Hin'. contradiction. }
      rewrite Hnil. simpl. lia.
    + assert (Hin : In r0 (rows_with_id (JStr "") cleaned)) by (rewrite Hrows; now left).
      apply filter_In in Hin as [Hin Hk].
      destruct Hone as (pre & u & post & _ & _ & _ & ->); [eauto|]. simpl. lia.
  - intros (p & Hp & Hnone). apply Hone.
    destruct (Hmiss p Hp Hnone) as (r & Hr & _ & Hid).
    exists r. split; [assumption|]. now rewrite Hid.
Qed.

Lemma written_ids_are_distinct_witness :
  [anonymous_permit "A"; identified_permit 7 "B"; anonymous_permit "C"] <> [] /\
  Forall (fun p => writable p = true)
    [anonymous_permit "A"; identified_permit 7 "B"; anonymous_permit "C"] /\
  exists cleaned unique,
    Forall2 (fun p r => extract_permit_data p = Ok r)
      [anonymous_permit "A"; identified_permit 7 "B"; anonymous_permit "C"] cleaned /\
    save_to_csv [anonymous_permit "A"; identified_permit 7 "B"; anonymous_permit "C"]
      "out.csv" no_files =
      Ok (write_file "out.csv" {| header := fieldnames; rows := unique |} no_files) /\
    ForallOrdPairs distinct_ids unique /\
    (forall p, In p [anonymous_permit "A"; identified_permit 7 "B"; anonymous_permit "C"] ->
       assoc "id" (properties_of p) = None ->
       exists r, In r cleaned /\ extract_permit_data p = Ok r /\ permit_id r = JStr "") /\
    (List.length (rows_with_id (JStr "") unique) <= 1)%nat /\
    ((exists p, In p [anonymous_permit "A"; identified_permit 7 "B"; anonymous_permit "C"] /\
                assoc "id" (properties_of p) = None) ->
     exists pre u post,
       cleaned = (pre ++ u :: post)%list /\
       permit_id u = JStr "" /\
       (forall x, In x pre -> permit_id x <> JStr "") /\
       rows_with_id (JStr "") unique = [u]).
Proof.
  split; [discriminate|]. split; [repeat constructor|].
  apply (written_ids_are_distinct
           [anonymous_permit "A"; identified_permit 7 "B"; anonymous_permit "C"]
           "out.csv" no_files); [discriminate | repeat constructor].
Defined.

(** Two different permits without an id: only the first is written. *)
Example anonymous_permits_merge :
  exists fs,
    save_to_csv [anonymous_permit "A"; identified_permit 7 "B"; anonymous_permit "C"]
      "out.csv" no_files = Ok fs /\
    option_map (fun f => map (fun r => (permit_id r, property_name r)) (rows f)) (fs "out.csv")
      = Some [(JStr "", JStr "A"); (JInt 7, JStr "B")].
Proof. eexists. split; reflexivity. Qed.

(** ** The two HTTP calls and the marker loop: claims C5 and C10 *)

Lemma wait_sent (extra : Q) (s : state) : sent (_rate_limit_wait extra s) = sent s.
Proof.
  unfold _rate_limit_wait.
  destruct (Qltb (now s - last_request_time s) (rate_limit s)); reflexivity.
Qed.

(** A failed exchange raises an exception that one of the two [except]
    clauses catches. *)
Lemma exchange_failed (r : http_response) :
  failed r = true ->
  exists e, exchange r = Fails e /\
            forall fallback, on_http_error fallback e = Some (ret fallback).
Proof.
  destruct r as [[|]|status body]; cbn [failed exchange].
  - intros _. exists ConnectionError. split; reflexivity.
  - intros _. exists Timeout. split; reflexivity.
  - unfold raise_for_status.
    destruct ((400 <=? status) && (status <? 600)); cbn [orb].
    + intros _. exists (HTTPError status). split; reflexivity.
    + destruct body; [|discriminate]. intros _. exists JSONDecodeError. split; reflexivity.
Qed.

Lemma get_locations_failure (net : remote) (s : state) (r : http_response)
    (lat_min lat_max lon_min lon_max : Q) (window : Z) (types : list Z) :
  failed r = true ->
  respond net (sent s) (GetLocations lat_min lat_max lon_min lon_max window types)
    = exchange r ->
  fst (get_locations net lat_min lat_max lon_min lon_max window types s) = Ok (JList []).
Proof.
  intros Hr H. destruct (exchange_failed r Hr) as (e & He & Hcatch).
  unfold get_locations, bind, wait, try_except, http_get.
  rewrite wait_sent, H, He, Hcatch. reflexivity.
Qed.





Lemma get_permit_details_sent (net : remote) (permit_id : json) (s : state) :
  sent (snd (get_permit_details net permit_id s)) = GetDetails permit_id :: sent s.
Proof.
  unfold get_permit_details, bind, wait, try_except, http_get.
  rewrite wait_sent.
  destruct (respond net (sent s) (GetDetails permit_id)) as [e|data]; [|reflexivity].
  unfold on_http_error.
  destruct (is_RequestException e); [reflexivity|].
  destruct (is_JSONDecodeError e); reflexivity.
Qed.

Lemma get_locations_sent (net : remote) (lat_min lat_max lon_min lon_max : Q)
    (window : Z) (types : list Z) (s : state) :
  sent (snd (get_locations net lat_min lat_max lon_min lon_max window types s)) =
  GetLocations lat_min lat_max lon_min lon_max window types :: sent s.
Proof.
  unfold get_locations, bind, wait, try_except, http_get, lift.
  rewrite wait_sent.
  destruct (respond net (sent s) _) as [e|data].
  - unfold on_http_error.
    destruct (is_RequestException e); [reflexivity|].
    destruct (is_JSONDecodeError e); reflexivity.
  - destruct (dict_get data "count" (JInt 0)) as [count|e]; [|destruct e; reflexivity].
    destruct (dict_get data "data" (JObj [])) as [inner|e]; [|destruct e; reflexivity].
    destruct (dict_get inner "features" (JList [])) as [features|e];
      [|destruct e; reflexivity].
    destruct (py_len features) as [n|e]; [reflexivity|destruct e; reflexivity].
Qed.

Lemma fetch_one_skip (net : remote) (location v : json) (s : state) :
  marker_id location = Ok v -> truthy v = false ->
  fetch_one net location s = (Ok None, s).
Proof.
  intros Hid Hfalsy. unfold fetch_one, bind, lift. now rewrite Hid, Hfalsy.
Qed.

(** A detail request for a falsy id is never added by the marker loop. *)
Lemma fetch_loop_sent (net : remote) (locations : list json) :
  forall detailed_permits s permit_id,
    truthy permit_id = false ->
    In (GetDetails permit_id) (sent (snd (fetch_loop net locations detailed_permits s))) ->
    In (GetDetails permit_id) (sent s).
Proof.
  induction locations as [|location rest IH]; intros acc s pid Hfalsy Hin; [exact Hin|].
  cbn [fetch_loop] in Hin. unfold bind at 1 in Hin. unfold fetch_one, bind, lift in Hin.
  destruct (marker_id location) as [v|e]; [|exact Hin].
  destruct (truthy v) eqn:Hv; cbn [negb] in Hin.
  - pose proof (get_permit_details_sent net v s) as Hsent.
    destruct (get_permit_details net v s) as [[details|e] s1]; simpl in Hsent.
    + assert (Hin1 : In (GetDetails pid) (sent s1)).
      { destruct (truthy details); unfold ret in Hin; eapply IH; eauto. }
      rewrite Hsent in Hin1. destruct Hin1 as [Heq|Hin1]; [|assumption].
      injection Heq as ->. congruence.
    + simpl in Hin. rewrite Hsent in Hin. destruct Hin as [Heq|Hin]; [|assumption].
      injection Heq as ->. congruence.
  - unfold ret in Hin. eapply IH; eauto.
Qed.

Lemma fetch_loop_skip (net : remote) (location v : json) (post : list json) :
  marker_id location = Ok v -> truthy v = false ->
  forall pre detailed_permits s,
    fetch_loop net (pre ++ location :: post) detailed_permits s =
    fetch_loop net (pre ++ post) detailed_permits s.
Proof.
  intros Hid Hfalsy. induction pre as [|l pre IH]; intros acc s.
  - cbn [app fetch_loop]. unfold bind. now rewrite (fetch_one_skip net location v s).
  - cbn [app fetch_loop]. unfold bind.
    destruct (fetch_one net l s) as [[[d|]|e] s1]; auto.
Qed.

(** C10.  A marker whose [properties.id] is absent or falsy is skipped:
    the loop body returns without calling the detail fetcher and leaves
    the state as it was, the loop behaves as if the marker were not in the
    list, and [scrape_bounding_box] never issues a detail request for a
    falsy id (the integer 0 among them). *)
Theorem falsy_markers_are_skipped
    (net : remote) (location v : json) (pre post detailed_permits : list json) (s : state) :
  marker_id location = Ok v ->
  truthy v = false ->
  fetch_one net location s = (Ok None, s) /\
  fetch_loop net (pre ++ location :: post) detailed_permits s =
    fetch_loop net (pre ++ post) detailed_permits s /\
  (forall lat_min lat_max lon_min lon_max window types fetch_details,
      In (GetDetails v)
         (sent (snd (scrape_bounding_box net lat_min lat_max lon_min lon_max window types
                       fetch_details s))) ->
      In (GetDetails v) (sent s)).
Proof.
  intros Hid Hfalsy. split; [now apply fetch_one_skip with (v := v)|].
  split; [now apply fetch_loop_skip with (v := v)|].
  intros until fetch_details. unfold scrape_bounding_box, bind, lift.
  pose proof (get_locations_sent net lat_min0 lat_max0 lon_min0 lon_max0 window types s)
    as Hsent.
  destruct (get_locations net lat_min0 lat_max0 lon_min0 lon_max0 window types s)
    as [[locations|e] s1]; simpl in Hsent.
  - assert (Hs1 : In (GetDetails v) (sent s1) -> In (GetDetails v) (sent s)).
    { rewrite Hsent. intros [Heq|Hin]; [discriminate Heq|exact Hin]. }
    destruct (truthy locations); cbn [negb]; [|exact Hs1].
    destruct fetch_details; cbn [negb]; [|exact Hs1].
    destruct (py_len locations); [|exact Hs1].
    destruct (py_iter locations) as [items|e]; [|exact Hs1].
    intros Hin. apply Hs1.
    apply (fetch_loop_sent net items [] s1 v Hfalsy).
    destruct (fetch_loop net items [] s1) as [[d|e] s2]; exact Hin.
  - simpl. rewrite Hsent. intros [Heq|Hin]; [discriminate Heq|exact Hin].
Qed.

Lemma falsy_markers_are_skipped_witness :
  marker_id (marker (JInt 0)) = Ok (JInt 0) /\
  truthy (JInt 0) = false /\
  fetch_one sample_net (marker (JInt 0)) (new_scraper 1 1700000000)
    = (Ok None, new_scraper 1 1700000000) /\
  fetch_loop sample_net ([marker (JInt 5)] ++ marker (JInt 0) :: [marker (JInt 6)]) []
    (new_scraper 1 1700000000) =
  fetch_loop sample_net ([marker (JInt 5)] ++ [marker (JInt 6)]) []
    (new_scraper 1 1700000000).
Proof.
  split; [reflexivity|]. split; [reflexivity|].
  pose proof (falsy_markers_are_skipped sample_net (marker (JInt 0)) (JInt 0)
                [marker (JInt 5)] [marker (JInt 6)] [] (new_scraper 1 1700000000)
                eq_refl eq_refl) as (Hone & Hloop & _).
  split; [exact Hone | exact Hloop].
Defined.

(** On the sample server the box holds two markers, one with id 0: one
    detail request goes out, for id 5. *)
Example id_zero_is_not_fetched :
  sent (snd (scrape_bounding_box sample_net 55 57 (21 # 2) (25 # 2) 30 [0; 1; 2; 3] true
               (new_scraper 1 1700000000)))
  = [GetDetails (JInt 5); GetLocations 55 57 (21 # 2) (25 # 2) 30 [0; 1; 2; 3]].
Proof. vm_compute. reflexivity. Qed.

(** ** The rate limiter: claim C6 *)

Lemma Qltb_lt (x y : Q) : Qltb x y = true <-> (x < y)%Q.
Proof.
  unfold Qltb. rewrite negb_true_iff. split.
  - intros H. apply Qnot_le_lt. intros Hle. apply Qle_bool_iff in Hle. congruence.
  - intros H. destruct (Qle_bool y x) eqn:Hb; [|reflexivity].
    apply Qle_bool_iff in Hb. apply Qlt_not_le in H. contradiction.
Qed.

Lemma Qltb_ge (x y : Q) : Qltb x y = false <-> (y <= x)%Q.
Proof.
  unfold Qltb. rewrite negb_false_iff. apply Qle_bool_iff.
Qed.

Lemma Qnat_S (n : nat) : (Qnat (S n) == Qnat n + 1)%Q.
Proof.
  unfold Qnat. rewrite Nat2Z.inj_succ, <- Z.add_1_r, inject_Z_plus. reflexivity.
Qed.

Lemma Qnat_nonneg (n : nat) : (0 <= Qnat n)%Q.
Proof.
  unfold Qnat. change 0%Q with (inject_Z 0). rewrite <- Zle_Qle. lia.
Qed.

(** One wait: the stamp is the clock, the clock did not go back, and the
    stamp is at least one interval after the previous stamp. *)
Lemma rate_limit_wait_spec (extra : Q) (s : state) :
  (0 <= extra)%Q ->
  rate_limit (_rate_limit_wait extra s) = rate_limit s /\
  last_request_time (_rate_limit_wait extra s) = now (_rate_limit_wait extra s) /\
  (now s <= now (_rate_limit_wait extra s))%Q /\
  (last_request_time s + rate_limit s <= now (_rate_limit_wait extra s))%Q.
Proof.
  intros Hextra. unfold _rate_limit_wait.
  destruct (Qltb (now s - last_request_time s) (rate_limit s)) eqn:Hlt; cbn.
  - apply Qltb_lt in Hlt. repeat split; try reflexivity; lra.
  - apply Qltb_ge in Hlt. repeat split; try reflexivity; lra.
Qed.

(** With a fresh stamp and a clock that reads at least the interval, the
    wait returns at once. *)
Lemma rate_limit_wait_first (extra : Q) (s : state) :
  (last_request_time s == 0)%Q -> (rate_limit s <= now s)%Q ->
  now (_rate_limit_wait extra s) = now s.
Proof.
  intros Hlast Hrl. unfold _rate_limit_wait.
  assert (Hge : Qltb (now s - last_request_time s) (rate_limit s) = false).
  { apply Qltb_ge. rewrite Hlast. lra. }
  now rewrite Hge.
Qed.

Lemma limited_calls_spec (schedule : list (Q * Q)) :
  forall s,
    Forall (fun ew => 0 <= fst ew /\ 0 <= snd ew)%Q schedule ->
    rate_limit (snd (limited_calls schedule s)) = rate_limit s /\
    (forall t, hd_error (fst (limited_calls schedule s)) = Some t ->
               now s <= t /\ last_request_time s + rate_limit s <= t)%Q /\
    (forall i t1 t2,
        nth_error (fst (limited_calls schedule s)) i = Some t1 ->
        nth_error (fst (limited_calls schedule s)) (S i) = Some t2 ->
        t1 + rate_limit s <= t2)%Q /\
    (now s + Qnat (pred (List.length schedule)) * rate_limit s
       <= now (snd (limited_calls schedule s)))%Q /\
    (schedule <> [] ->
     last_request_time s + Qnat (List.length schedule) * rate_limit s
       <= now (snd (limited_calls schedule s)))%Q.
Proof.
  induction schedule as [|[extra work] rest IH]; intros s Hall.
  - cbn. repeat split; try discriminate; try congruence.
    change (Qnat 0) with 0%Q. lra.
  - inversion Hall as [|? ? [Hextra Hwork] Hrest]; subst. cbn [fst snd] in Hextra, Hwork.
    cbn [limited_calls]. unfold limited_call.
    destruct (rate_limit_wait_spec extra s Hextra) as (Hrl & Hlast & Hnow & Hgap).
    set (s1 := _rate_limit_wait extra s) in *.
    specialize (IH (advance work s1) Hrest).
    destruct (limited_calls rest (advance work s1)) as [ts s2] eqn:Hcalls.
    cbn [fst snd] in IH |- *. cbn [advance rate_limit last_request_time now] in IH.
    destruct IH as (IHrl & IHhd & IHgap & IHtotal & IHlast).
    rewrite Hrl, Hlast in *.
    repeat split.
    + exact IHrl.
    + injection H as <-. exact Hnow.
    + injection H as <-. exact Hgap.
    + intros [|i] t1 t2 H1 H2; cbn in H1, H2.
      * injection H1 as <-. destruct ts as [|t ts']; [discriminate|].
        injection H2 as <-. destruct (IHhd t eq_refl) as [_ H]. exact H.
      * eapply IHgap; eauto.
    + cbn [List.length pred].
      destruct rest as [|c rest'].
      * cbn in Hcalls. injection Hcalls as <- <-. cbn [advance now List.length].
        change (Qnat 0) with 0%Q. lra.
      * assert (Hne : c :: rest' <> []) by discriminate.
        specialize (IHlast Hne). lra.
    + intros _. cbn [List.length]. rewrite Qnat_S.
      destruct rest as [|c rest'].
      * cbn in Hcalls. injection Hcalls as <- <-. cbn [advance now List.length].
        change (Qnat 0) with 0%Q. lra.
      * assert (Hne : c :: rest' <> []) by discriminate.
        specialize (IHlast Hne). lra.
Qed.

(** Both HTTP calls are calls issued through the limiter: the clock and
    the stamp move as in [limited_call], with the overshoot and the latency
    the server shows at that point. *)
Lemma get_permit_details_limited (net : remote) (permit_id : json) (s : state) :
  let s1 := snd (get_permit_details net permit_id s) in
  let s2 := snd (limited_call (oversleep net (List.length (sent s)))
                   (latency net (List.length (sent s))) s) in
  now s1 = now s2 /\ last_request_time s1 = last_request_time s2 /\
  rate_limit s1 = rate_limit s2.
Proof.
  unfold get_permit_details, bind, wait, try_except, http_get, limited_call.
  rewrite wait_sent.
  destruct (respond net (sent s) (GetDetails permit_id)) as [e|data];
    [|repeat split; reflexivity].
  unfold on_http_error.
  destruct (is_RequestException e); [repeat split; reflexivity|].
  destruct (is_JSONDecodeError e); repeat split; reflexivity.
Qed.

Lemma get_locations_limited (net : remote) (lat_min lat_max lon_min lon_max : Q)
    (window : Z) (types : list Z) (s : state) :
  let s1 := snd (get_locations net lat_min lat_max lon_min lon_max window types s) in
  let s2 := snd (limited_call (oversleep net (List.length (sent s)))
                   (latency net (List.length (sent s))) s) in
  now s1 = now s2 /\ last_request_time s1 = last_request_time s2 /\
  rate_limit s1 = rate_limit s2.
Proof.
  unfold get_locations, bind, wait, try_except, http_get, lift, limited_call.
  rewrite wait_sent.
  destruct (respond net (sent s) _) as [e|data].
  - unfold on_http_error.
    destruct (is_RequestException e); [repeat split; reflexivity|].
    destruct (is_JSONDecodeError e); repeat split; reflexivity.
  - destruct (dict_get data "count" (JInt 0)) as [count|e];
      [|destruct e; repeat split; reflexivity].
    destruct (dict_get data "data" (JObj [])) as [inner|e];
      [|destruct e; repeat split; reflexivity].
    destruct (dict_get inner "features" (JList [])) as [features|e];
      [|destruct e; repeat split; reflexivity].
    destruct (py_len features) as [n|e]; [|destruct e]; repeat split; reflexivity.
Qed.

(** C6.  Calls issued one after the other through the limiter, whatever
    the time each takes and however long the sleeps overshoot: each call
    begins at least [rate_limit] seconds after the previous one began, so
    N calls take at least (N-1) times [rate_limit] seconds; and on a fresh
    scraper, whose stamp is 0, the first call begins at once when the clock
    reads at least [rate_limit]. *)
Theorem rate_limiter_spaces_calls (schedule : list (Q * Q)) (s : state) :
  Forall (fun ew => 0 <= fst ew /\ 0 <= snd ew)%Q schedule ->
  (forall i t1 t2,
      nth_error (fst (limited_calls schedule s)) i = Some t1 ->
      nth_error (fst (limited_calls schedule s)) (S i) = Some t2 ->
      t1 + rate_limit s <= t2)%Q /\
  (Qnat (List.length schedule - 1) * rate_limit s
     <= now (snd (limited_calls schedule s)) - now s)%Q /\
  ((last_request_time s == 0)%Q -> (rate_limit s <= now s)%Q ->
   forall t, hd_error (fst (limited_calls schedule s)) = Some t -> t = now s).
Proof.
  intros Hall.
  destruct (limited_calls_spec schedule s Hall) as (_ & _ & Hgap & Htotal & _).
  split; [exact Hgap|]. split.
  - replace (List.length schedule - 1)%nat with (pred (List.length schedule)) by lia. lra.
  - intros Hlast Hrl t Ht. destruct schedule as [|[extra work] rest]; [discriminate|].
    cbn [limited_calls] in Ht. unfold limited_call in Ht.
    destruct (limited_calls rest _) as [ts s2]. cbn in Ht. injection Ht as <-.
    now apply rate_limit_wait_first.
Qed.

Lemma rate_limiter_spaces_calls_witness :
  Forall (fun ew => 0 <= fst ew /\ 0 <= snd ew)%Q sample_schedule /\
  (forall i t1 t2,
      nth_error (fst (limited_calls sample_schedule (new_scraper 1 1700000000))) i = Some t1 ->
      nth_error (fst (limited_calls sample_schedule (new_scraper 1 1700000000))) (S i)
        = Some t2 ->
      t1 + 1 <= t2)%Q /\
  (Qnat 2 * 1
     <= now (snd (limited_calls sample_schedule (new_scraper 1 1700000000))) - 1700000000)%Q.
Proof.
  assert (H : Forall (fun ew => 0 <= fst ew /\ 0 <= snd ew)%Q sample_schedule).
  { repeat constructor; discriminate. }
  split; [exact H|].
  pose proof (rate_limiter_spaces_calls sample_schedule (new_scraper 1 1700000000) H)
    as (Hgap & Htotal & _).
  split; [exact Hgap | exact Htotal].
Defined.

(** The sample schedule on a fresh scraper with a one-second interval: the
    calls begin at t, t + 1 and t + 2.1. *)
Example sample_schedule_starts :
  fst (limited_calls sample_schedule (new_scraper 1 1700000000)) =
  [1700000000; 1700000001; 68000000084 # 40]%Q.
Proof. vm_compute. reflexivity. Qed.

(** ** The grid: claim C4 *)

Lemma py_min_cases (a b : Q) :
  (py_min a b = b /\ b < a)%Q \/ (py_min a b = a /\ a <= b)%Q.
Proof.
  unfold py_min. destruct (Qltb b a) eqn:H.
  - left. split; [reflexivity|]. now apply Qltb_lt.
  - right. split; [reflexivity|]. now apply Qltb_ge.
Qed.

(** Enough iterations exist for any span and any positive step. *)
Lemma enough_fuel (d step : Q) :
  (0 < step)%Q -> exists n, (d <= Qnat n * step)%Q.
Proof.
  intros Hstep. exists (Z.to_nat (Qceiling (d / step))).
  assert (Hne : ~ (step == 0)%Q) by lra.
  rewrite <- (Qmult_div_r d step Hne) at 1. rewrite (Qmult_comm step).
  apply Qmult_le_compat_r; [|lra].
  eapply Qle_trans; [apply Qle_ceiling|].
  unfold Qnat. rewrite <- Zle_Qle. lia.
Qed.

Lemma Qnat_le (n m : nat) (step : Q) :
  (n <= m)%nat -> (0 < step)%Q -> (Qnat n * step <= Qnat m * step)%Q.
Proof.
  intros Hnm Hstep. apply Qmult_le_compat_r; [|lra].
  unfold Qnat. rewrite <- Zle_Qle. lia.
Qed.

Ltac split_min a b :=
  let H := fresh "Hmin" in
  destruct (py_min_cases a b) as [[-> H]|[-> H]].

Section GridLoops.

Variable b : bbox.
Variable grid_size : Q.
Hypothesis Hstep : (0 < grid_size)%Q.

(** One row of the grid. *)
Lemma lon_loop_spec (lat : Q) :
  forall fuel lon,
    (lon_max b - lon <= Qnat fuel * grid_size)%Q ->
    exists cells,
      lon_loop fuel b grid_size lat lon = Some cells /\
      (forall c, In c cells ->
         lat_min c = lat /\
         lat_max c = py_min (lat + grid_size) (lat_max b) /\
         lon_max c = py_min (lon_min c + grid_size) (lon_max b) /\
         (lon <= lon_min c /\ lon_min c < lon_max c /\ lon_max c <= lon_max b)%Q) /\
      (forall y, (lon <= y)%Q -> (y <= lon_max b)%Q -> (lon < lon_max b)%Q ->
         exists c, In c cells /\ (lon_min c <= y /\ y <= lon_max c)%Q).
Proof.
  induction fuel as [|fuel IH]; intros lon Hspan.
  - change (Qnat 0) with 0%Q in Hspan.
    assert (Hge : Qltb lon (lon_max b) = false) by (apply Qltb_ge; lra).
    exists []. cbn [lon_loop]. rewrite Hge. repeat split; try contradiction.
    apply Qltb_ge in Hge. intros; lra.
  - cbn [lon_loop]. destruct (Qltb lon (lon_max b)) eqn:Hlt.
    + apply Qltb_lt in Hlt. rewrite Qnat_S in Hspan.
      destruct (IH (lon + grid_size)%Q) as (cells & Hloop & Hcells & Hcover); [lra|].
      rewrite Hloop. eexists. split; [reflexivity|]. split.
      * intros c [<-|Hc]; cbn [lat_min lat_max lon_min lon_max].
        -- repeat split; try lra; split_min (lon + grid_size)%Q (lon_max b); lra.
        -- destruct (Hcells c Hc) as (H1 & H2 & H3 & H4). repeat split; auto; lra.
      * intros y Hy1 Hy2 _.
        destruct (Qlt_le_dec (lon + grid_size) y) as [Hfar|Hnear].
        -- destruct (Hcover y) as (c & Hc & Hin); try lra.
           exists c. split; [now right|exact Hin].
        -- eexists. split; [now left|]. cbn [lon_min lon_max].
           split_min (lon + grid_size)%Q (lon_max b); lra.
    + exists []. repeat split; try contradiction.
      apply Qltb_ge in Hlt. intros; lra.
Qed.

Variable lon_fuel : nat.
Hypothesis Hlon : (lon_min b < lon_max b)%Q.
Hypothesis Hlonfuel : (lon_max b - lon_min b <= Qnat lon_fuel * grid_size)%Q.

(** The rows from a given latitude northwards. *)
Lemma lat_loop_spec :
  forall fuel lat,
    (lat_max b - lat <= Qnat fuel * grid_size)%Q ->
    exists cells,
      lat_loop fuel lon_fuel b grid_size lat = Some cells /\
      (forall c, In c cells ->
         lat_max c = py_min (lat_min c + grid_size) (lat_max b) /\
         lon_max c = py_min (lon_min c + grid_size) (lon_max b) /\
         (lat <= lat_min c /\ lat_min c < lat_max c /\ lat_max c <= lat_max b)%Q /\
         (lon_min b <= lon_min c /\ lon_min c < lon_max c /\ lon_max c <= lon_max b)%Q) /\
      (forall x y, (lat <= x)%Q -> (x <= lat_max b)%Q -> (lat < lat_max b)%Q ->
         (lon_min b <= y)%Q -> (y <= lon_max b)%Q ->
         exists c, In c cells /\ inside c x y).
Proof.
  induction fuel as [|fuel IH]; intros lat Hspan.
  - change (Qnat 0) with 0%Q in Hspan.
    assert (Hge : Qltb lat (lat_max b) = false) by (apply Qltb_ge; lra).
    exists []. cbn [lat_loop]. rewrite Hge. repeat split; try contradiction.
    apply Qltb_ge in Hge. intros; lra.
  - cbn [lat_loop]. destruct (Qltb lat (lat_max b)) eqn:Hlt.
    + apply Qltb_lt in Hlt. rewrite Qnat_S in Hspan.
      destruct (lon_loop_spec lat lon_fuel (lon_min b) Hlonfuel)
        as (row_cells & Hrow & Hrowcells & Hrowcover).
      destruct (IH (lat + grid_size)%Q) as (cells & Hloop & Hcells & Hcover); [lra|].
      rewrite Hrow, Hloop. eexists. split; [reflexivity|]. split.
      * intros c Hc. apply in_app_or in Hc as [Hc|Hc].
        -- destruct (Hrowcells c Hc) as (H1 & H2 & H3 & H4).
           rewrite H1, H2. repeat split; try tauto; try lra;
             split_min (lat + grid_size)%Q (lat_max b); lra.
        -- destruct (Hcells c Hc) as (H1 & H2 & H3 & H4). repeat split; auto; lra.
      * intros x y Hx1 Hx2 _ Hy1 Hy2.
        destruct (Qlt_le_dec (lat + grid_size) x) as [Hfar|Hnear].
        -- destruct (Hcover x y) as (c & Hc & Hin); try lra.
           exists c. split; [apply in_or_app; now right|exact Hin].
        -- destruct (Hrowcover y Hy1 Hy2 Hlon) as (c & Hc & Hin).
           exists c. split; [apply in_or_app; now left|].
           destruct (Hrowcells c Hc) as (H1 & H2 & _). unfold inside. rewrite H1, H2.
           split_min (lat + grid_size)%Q (lat_max b); repeat split; lra.
    + exists []. repeat split; try contradiction.
      apply Qltb_ge in Hlt. intros; lra.
Qed.

End GridLoops.

(** C4.  For every box with lat_min < lat_max and lon_min < lon_max and
    every positive cell size the grid loops finish, and the cells they
    generate cover the box exactly: a point lies in the box if and only if
    it lies in some cell.  Every cell lies within the box, is not empty,
    has its upper bounds clipped to the box ([min] of the stepped bound and
    the bound of the box) and has sides of at most the cell size. *)
Theorem grid_cells_cover_bbox (b : bbox) (grid_size : Q) :
  (lat_min b < lat_max b)%Q ->
  (lon_min b < lon_max b)%Q ->
  (0 < grid_size)%Q ->
  exists fuel cells,
    grid_cells fuel b grid_size = Some cells /\
    (forall lat lon, inside b lat lon <-> exists c, In c cells /\ inside c lat lon) /\
    (forall c, In c cells ->
       lat_max c = py_min (lat_min c + grid_size) (lat_max b) /\
       lon_max c = py_min (lon_min c + grid_size) (lon_max b) /\
       (lat_min b <= lat_min c /\ lat_min c < lat_max c /\ lat_max c <= lat_max b)%Q /\
       (lon_min b <= lon_min c /\ lon_min c < lon_max c /\ lon_max c <= lon_max b)%Q /\
       (lat_max c - lat_min c <= grid_size)%Q /\
       (lon_max c - lon_min c <= grid_size)%Q).
Proof.
  intros Hlat Hlon Hstep.
  destruct (enough_fuel (lat_max b - lat_min b) grid_size Hstep) as (n1 & Hn1).
  destruct (enough_fuel (lon_max b - lon_min b) grid_size Hstep) as (n2 & Hn2).
  pose proof (Qnat_le n1 (Nat.max n1 n2) grid_size (Nat.le_max_l _ _) Hstep) as Hm1.
  pose proof (Qnat_le n2 (Nat.max n1 n2) grid_size (Nat.le_max_r _ _) Hstep) as Hm2.
  destruct (lat_loop_spec b grid_size Hstep (Nat.max n1 n2) Hlon (Qle_trans _ _ _ Hn2 Hm2)
              (Nat.max n1 n2) (lat_min b) (Qle_trans _ _ _ Hn1 Hm1))
    as (cells & Hloop & Hcells & Hcover).
  exists (Nat.max n1 n2), cells. split; [exact Hloop|]. split.
  - intros x y. split.
    + intros (Hx1 & Hx2 & Hy1 & Hy2). now apply Hcover.
    + intros (c & Hc & Hx1 & Hx2 & Hy1 & Hy2).
      destruct (Hcells c Hc) as (_ & _ & Hclat & Hclon). unfold inside. lra.
  - intros c Hc. destruct (Hcells c Hc) as (H1 & H2 & Hclat & Hclon).
    repeat split; try tauto.
    + rewrite H1. split_min (lat_min c + grid_size)%Q (lat_max b); lra.
    + rewrite H2. split_min (lon_min c + grid_size)%Q (lon_max b); lra.
Qed.

Lemma grid_cells_cover_bbox_witness :
  (lat_min stockholm_bbox < lat_max stockholm_bbox)%Q /\
  (lon_min stockholm_bbox < lon_max stockholm_bbox)%Q /\
  (0 < 1 # 10)%Q /\
  exists fuel cells,
    grid_cells fuel stockholm_bbox (1 # 10) = Some cells /\
    (forall lat lon,
        inside stockholm_bbox lat lon <-> exists c, In c cells /\ inside c lat lon) /\
    (forall c, In c cells ->
       lat_max c = py_min (lat_min c + (1 # 10)) (lat_max stockholm_bbox) /\
       lon_max c = py_min (lon_min c + (1 # 10)) (lon_max stockholm_bbox) /\
       (lat_min stockholm_bbox <= lat_min c /\ lat_min c < lat_max c /\
        lat_max c <= lat_max stockholm_bbox)%Q /\
       (lon_min stockholm_bbox <= lon_min c /\ lon_min c < lon_max c /\
        lon_max c <= lon_max stockholm_bbox)%Q /\
       (lat_max c - lat_min c <= 1 # 10)%Q /\
       (lon_max c - lon_min c <= 1 # 10)%Q).
Proof.
  split; [reflexivity|]. split; [reflexivity|]. split; [reflexivity|].
  apply (grid_cells_cover_bbox stockholm_bbox (1 # 10)); reflexivity.
Defined.

(** The two grids of the repository: 49 cells of two degrees over Sweden,
    12 cells of a tenth of a degree over Stockholm. *)
Example repository_grids :
  option_map (@List.length bbox) (grid_cells 7 sweden_bbox 2) = Some 49%nat /\
  option_map (@List.length bbox) (grid_cells 4 stockholm_bbox (1 # 10)) = Some 12%nat.
Proof. split; vm_compute; reflexivity. Qed.

(** ** The exact domain of the normaliser *)

Lemma py_add_ok_num (a b r : json) : py_add a b = Ok r -> num_of b <> None.
Proof.
  unfold py_add.
  destruct (int_of a), (int_of b) eqn:Hb; try (destruct b; discriminate);
    destruct (num_of a), (num_of b); try discriminate; congruence.
Qed.

Lemma chars_num (s : string) (i : nat) (x : json) :
  nth_error (chars s) i = Some x -> num_of x = None.
Proof.
  revert i. induction s as [|c s IH]; intros [|i] H; simpl in H; try discriminate.
  - injection H as <-. reflexivity.
  - eauto.
Qed.

Lemma getitem_add_coord (v acc x acc' : json) (i : nat) :
  getitem v i = Ok x -> py_add acc x = Ok acc' -> coord_of i v <> None.
Proof.
  intros Hget Hadd. apply py_add_ok_num in Hadd.
  destruct v; simpl in Hget; try discriminate.
  - destruct (nth_error (chars s) i) eqn:Hn; [|discriminate].
    injection Hget as ->. apply chars_num in Hn. congruence.
  - simpl. destruct (nth_error l i); [|discriminate]. injection Hget as ->. exact Hadd.
Qed.

Lemma sum_component_raises (i : nat) (vs : list json) :
  forall acc,
    (exists v, In v vs /\ coord_of i v = None) ->
    raises (sum_component i vs acc).
Proof.
  induction vs as [|v vs IH]; intros acc (w & Hin & Hw); [contradiction|].
  cbn [sum_component].
  destruct (getitem v i) as [x|e] eqn:Hget; [|now exists e].
  cbn [rbind]. destruct (py_add acc x) as [acc'|e] eqn:Hadd; [|now exists e].
  cbn [rbind]. destruct Hin as [->|Hin].
  - exfalso. exact (getitem_add_coord _ _ _ _ _ Hget Hadd Hw).
  - apply IH. eauto.
Qed.

Lemma forallb_vertex_bad (vs : list json) :
  forallb vertex_ok vs = false ->
  (exists v, In v vs /\ coord_of 0 v = None) \/
  (exists v, In v vs /\ coord_of 1 v = None).
Proof.
  induction vs as [|v vs IH]; simpl; [discriminate|].
  intros H. apply andb_false_iff in H as [H|H].
  - unfold vertex_ok in H.
    destruct (coord_of 0 v) eqn:H0; [|left; exists v; auto].
    destruct (coord_of 1 v) eqn:H1; [discriminate|right; exists v; auto].
  - destruct (IH H) as [(w & Hw & Hc)|(w & Hw & Hc)]; [left|right]; exists w; auto.
Qed.

(** The polygon computation on a first ring [vertices] that is truthy. *)
Lemma bad_ring_raises (vertices : json) :
  truthy vertices = true ->
  ring_ok vertices = false ->
  raises (vs <- py_iter vertices ;;
          sx <- sum_component 0 vs (JInt 0) ;;
          n <- py_len vertices ;;
          lon <- py_truediv sx n ;;
          sy <- sum_component 1 vs (JInt 0) ;;
          n' <- py_len vertices ;;
          lat <- py_truediv sy n' ;;
          Ok (lon, lat))%result.
Proof.
  intros Ht. unfold ring_ok. rewrite Ht.
  destruct vertices as [| | | |s|vs|kvs]; intros Hbad;
    try (eexists; reflexivity); try discriminate.
  - destruct s as [|c s]; [discriminate|]. eexists; reflexivity.
  - cbn [py_iter py_len rbind].
    destruct (forallb_vertex_bad vs Hbad) as [H0|H1].
    + destruct (sum_component_raises 0 vs (JInt 0) H0) as [e ->]. now exists e.
    + destruct (sum_component 0 vs (JInt 0)) as [sx|e]; [|now exists e]. cbn [rbind].
      destruct (py_truediv sx (List.length vs)) as [lon|e]; [|now exists e]. cbn [rbind].
      destruct (sum_component_raises 1 vs (JInt 0) H1) as [e ->]. now exists e.
  - destruct kvs as [|[k x] kvs]; [discriminate|].
    cbn [py_iter map fst sum_component getitem].
    destruct k as [|c k]; eexists; reflexivity.
Qed.

Lemma extract_coordinates_raises (geometry : json) :
  geometry_ok geometry = false -> raises (extract_coordinates geometry).
Proof.
  destruct geometry as [| | | | | |g]; try (intros _; eexists; reflexivity).
  unfold geometry_ok, extract_coordinates, dict_get.
  fold (field_or g "coordinates" (JList [])). fold (field_or g "type" JNull).
  cbn [rbind].
  destruct (eq_str (field_or g "type" JNull) "Polygon" &&
            truthy (field_or g "coordinates" (JList []))) eqn:Hpoly.
  - apply andb_prop in Hpoly as [_ Htr]. rewrite Htr.
    destruct (field_or g "coordinates" (JList [])) as [| | | |s|l|kvs];
      try discriminate; try (intros _; eexists; reflexivity).
    + destruct s as [|c s]; [discriminate|]. intros _. eexists; reflexivity.
    + destruct l as [|ring rings]; [discriminate|]. cbn [getitem nth_error rbind].
      intros Hbad. destruct (truthy ring) eqn:Hring.
      * now apply bad_ring_raises.
      * unfold ring_ok in Hbad. rewrite Hring in Hbad. discriminate.
  - destruct (eq_str (field_or g "type" JNull) "Point"); [|discriminate].
    destruct (field_or g "coordinates" (JList [])) as [| | | |s|l|kvs];
      try discriminate; try (intros _; eexists; reflexivity).
    intros Hlen. cbn [py_len rbind]. apply Nat.ltb_ge in Hlen.
    apply Nat.leb_le in Hlen. rewrite Hlen. eexists; reflexivity.
Qed.

(** In the model the normaliser returns a row exactly on the accepted
    records. *)
Lemma record_ok_exact (permit : json) :
  (exists r, extract_permit_data permit = Ok r) <-> record_ok permit = true.
Proof.
  split.
  - intros (r & Hr). destruct (record_ok permit) eqn:Hok; [reflexivity|]. exfalso.
    revert Hr. unfold extract_permit_data, dict_get.
    destruct permit as [| | | | | |p]; try discriminate. cbn [rbind].
    simpl in Hok. unfold field_or in Hok.
    destruct (match assoc "geometry" p with Some v => v | None => JObj [] end)
      as [| | | | | |g] eqn:Hg; try discriminate. cbn [rbind].
    destruct (geometry_ok (JObj g)) eqn:Hgeo.
    + destruct (extract_coordinates (JObj g)); [|discriminate]. cbn [rbind].
      destruct (match assoc "properties" p with Some v => v | None => JObj [] end)
        as [| | | | | |props]; try discriminate. cbn [rbind].
      rewrite andb_true_r in Hok. unfold PERMIT_TYPES_get. rewrite Hok. discriminate.
    + destruct (extract_coordinates_raises _ Hgeo) as [e ->]. discriminate.
  - intros Hok. destruct (extract_permit_data_ok permit Hok) as (? & ? & ? & _ & _ & H).
    eauto.
Qed.

(** * Further properties of the code *)

(** ** The normaliser beyond polygons and integer codes *)

Lemma extract_permit_id (permit : json) (r : row) :
  extract_permit_data permit = Ok r -> permit_id r = record_id permit.
Proof.
  intros Hr.
  assert (Hok : record_ok permit = true) by (apply record_ok_exact; eauto).
  destruct (extract_permit_data_ok permit Hok) as (lon & lat & label & _ & _ & Hrow).
  rewrite Hrow in Hr. injection Hr as <-. reflexivity.
Qed.

(** X1.  A Point geometry: the first two coordinates are copied as they are,
    whatever they are, and further coordinates are ignored; with fewer
    than two coordinates both results are null. *)
Theorem point_coordinates_are_copied (permit : json) (coords : list json) :
  record_ok permit = true ->
  field_or (geometry_of permit) "type" JNull = JStr "Point" ->
  field_or (geometry_of permit) "coordinates" (JList []) = JList coords ->
  exists r,
    extract_permit_data permit = Ok r /\
    match coords with
    | lon :: lat :: _ => longitude r = lon /\ latitude r = lat
    | _ => longitude r = JNull /\ latitude r = JNull
    end.
Proof.
  intros Hok Hty Hco.
  destruct (extract_permit_data_ok permit Hok) as (lon & lat & label & Hll & _ & Hrow).
  eexists. split; [exact Hrow|]. cbn [longitude latitude].
  revert Hll. unfold extract_coordinates, dict_get.
  fold (field_or (geometry_of permit) "coordinates" (JList [])).
  fold (field_or (geometry_of permit) "type" JNull).
  rewrite Hty, Hco. cbn [rbind eq_str]. 
  replace ("Point" =? "Polygon")%string with false by reflexivity.
  replace ("Point" =? "Point")%string with true by reflexivity.
  cbn [andb py_len rbind].
  destruct coords as [|x [|y rest]]; cbn; intros H; injection H as <- <-; split; reflexivity.
Qed.

Lemma point_coordinates_are_copied_witness :
  record_ok (point_permit [JFloat (1807 # 100); JFloat (5933 # 100); JInt 12]) = true /\
  exists r,
    extract_permit_data (point_permit [JFloat (1807 # 100); JFloat (5933 # 100); JInt 12])
      = Ok r /\
    longitude r = JFloat (1807 # 100) /\ latitude r = JFloat (5933 # 100).
Proof.
  split; [reflexivity|].
  apply (point_coordinates_are_copied
           (point_permit [JFloat (1807 # 100); JFloat (5933 # 100); JInt 12])
           [JFloat (1807 # 100); JFloat (5933 # 100); JInt 12]); reflexivity.
Defined.

Lemma table_find_compat (a b : json) (t : list (json * string)) :
  key_eqb a b = true -> table_find a t = table_find b t.
Proof.
  intros Hab. induction t as [|[k v] t IH]; simpl; [reflexivity|].
  now rewrite (key_eqb_compat a b k Hab), IH.
Qed.

Lemma table_find_not_number (k : json) :
  num_of k = None -> table_find k PERMIT_TYPES = None.
Proof.
  intros Hk. unfold PERMIT_TYPES, table_find, key_eqb. rewrite Hk. reflexivity.
Qed.

(** X2.  The type label goes by the value of the code as a dict key: a float
    or boolean equal to an integer gets that integer's label, and a code
    that is no number (a string of digits, null) is labelled Unknown;
    [permit_type_num] keeps the code as it came. *)
Theorem permit_type_goes_by_value (permit k : json) :
  record_ok permit = true ->
  assoc "typ_num" (properties_of permit) = Some k ->
  exists r,
    extract_permit_data permit = Ok r /\
    permit_type_num r = k /\
    (forall q code, num_of k = Some q -> (q == inject_Z code)%Q ->
                    permit_type r = permit_type_label code) /\
    (num_of k = None -> permit_type r = "Unknown").
Proof.
  intros Hok Hk.
  destruct (extract_permit_data_ok permit Hok) as (lon & lat & label & _ & Hlabel & Hrow).
  eexists. split; [exact Hrow|]. cbn [permit_type_num permit_type].
  unfold field_or in Hlabel |- *. rewrite Hk in Hlabel |- *.
  split; [reflexivity|].
  unfold PERMIT_TYPES_get in Hlabel.
  destruct (hashable k); [|discriminate].
  assert (Hl : label = match table_find k PERMIT_TYPES with
                       | Some v => v
                       | None => "Unknown"
                       end) by congruence.
  clear Hlabel Hrow. subst label. split.
  - intros q code Hq Heq.
    assert (Hkey : key_eqb k (JInt code) = true).
    { unfold key_eqb. rewrite Hq. cbn [num_of]. now apply Qeq_eq_bool. }
    rewrite (table_find_compat _ _ _ Hkey).
    pose proof (PERMIT_TYPES_get_int code) as H. unfold PERMIT_TYPES_get in H.
    cbn [hashable] in H. now injection H.
  - intros Hnone. now rewrite table_find_not_number.
Qed.

Lemma permit_type_goes_by_value_witness :
  record_ok (JObj [("properties", JObj [("typ_num", JFloat 1)])]) = true /\
  exists r,
    extract_permit_data (JObj [("properties", JObj [("typ_num", JFloat 1)])]) = Ok r /\
    permit_type_num r = JFloat 1 /\
    permit_type r = "Rivningslov".
Proof.
  split; [reflexivity|].
  destruct (permit_type_goes_by_value
              (JObj [("properties", JObj [("typ_num", JFloat 1)])]) (JFloat 1)
              eq_refl eq_refl) as (r & Hr & Hnum & Hval & _).
  exists r. repeat split; auto.
  apply (Hval 1%Q 1 eq_refl). reflexivity.
Defined.

(** ** The writer beyond the first occurrence *)

Lemma clean_all_app (l1 l2 : list json) :
  clean_all (l1 ++ l2) =
  (c1 <- clean_all l1 ;; c2 <- clean_all l2 ;; Ok (c1 ++ c2)%list)%result.
Proof.
  induction l1 as [|p l1 IH]; simpl.
  - destruct (clean_all l2); reflexivity.
  - destruct (extract_permit_data p); [|reflexivity]. simpl. rewrite IH.
    destruct (clean_all l1); [|reflexivity]. simpl.
    destruct (clean_all l2); reflexivity.
Qed.

Lemma clean_all_rows (permits : list json) (cleaned : list row) :
  clean_all permits = Ok cleaned ->
  Forall2 (fun p r => extract_permit_data p = Ok r) permits cleaned.
Proof.
  revert cleaned. induction permits as [|p rest IH]; simpl; intros cleaned H.
  - injection H as <-. constructor.
  - destruct (extract_permit_data p) as [r|] eqn:Hp; [|discriminate]. simpl in H.
    destruct (clean_all rest) as [rs|]; [|discriminate]. injection H as <-.
    constructor; auto.
Qed.

Lemma clean_all_raises (permits : list json) :
  (exists p, In p permits /\ record_ok p = false) -> raises (clean_all permits).
Proof.
  induction permits as [|p0 rest IH]; intros (p & Hin & Hbad); [contradiction|].
  simpl. destruct (extract_permit_data p0) as [r|e] eqn:Hp0; [|now exists e].
  simpl. destruct Hin as [->|Hin].
  - assert (record_ok p = true) by (apply record_ok_exact; eauto). congruence.
  - destruct IH as [e He]; [eauto|]. rewrite He. now exists e.
Qed.

Lemma dedup_loop_raises (cleaned : list row) :
  forall seen unique,
    (exists r, In r cleaned /\ hashable (permit_id r) = false) ->
    raises (dedup_loop cleaned seen unique).
Proof.
  induction cleaned as [|r0 rest IH]; intros seen unique (r & Hin & Hbad);
    [contradiction|].
  simpl. destruct (hashable (permit_id r0)) eqn:Hh; [|now exists TypeError].
  destruct Hin as [->|Hin]; [congruence|].
  destruct (set_mem (permit_id r0) seen); simpl; apply IH; eauto.
Qed.

(** X3.  One record that the normaliser rejects, or whose id cannot be hashed,
    makes the writer raise before it opens the file: nothing is written,
    not even the rows of the good records. *)
Theorem one_bad_record_stops_the_writer
    (permits : list json) (output_file : string) (fs : filesystem) :
  (exists p, In p permits /\ writable p = false) ->
  raises (save_to_csv permits output_file fs).
Proof.
  intros (p & Hin & Hbad). unfold save_to_csv.
  destruct permits as [|p0 rest] eqn:Hp; [contradiction|]. rewrite <- Hp in *. clear Hp.
  destruct (clean_all permits) as [cleaned|e] eqn:Hc; [|now exists e].
  cbn [rbind].
  destruct (dedup_loop_raises cleaned [] []) as [e He]; [|rewrite He; now exists e].
  pose proof (clean_all_rows _ _ Hc) as H2.
  destruct (Forall2_In_l _ _ _ H2 p Hin) as (r & Hr & Hpr).
  exists r. split; [assumption|].
  rewrite (extract_permit_id _ _ Hpr).
  unfold writable in Hbad. apply andb_false_iff in Hbad as [Hbad|Hbad]; [|exact Hbad].
  assert (record_ok p = true) by (apply record_ok_exact; eauto). congruence.
Qed.

Lemma one_bad_record_stops_the_writer_witness :
  (exists p, In p [identified_permit 7 "A"; null_geometry_permit] /\ writable p = false) /\
  raises (save_to_csv [identified_permit 7 "A"; null_geometry_permit] "out.csv" no_files).
Proof.
  assert (H : exists p, In p [identified_permit 7 "A"; null_geometry_permit] /\
                        writable p = false).
  { exists null_geometry_permit. split; [right; now left | reflexivity]. }
  split; [exact H|].
  exact (one_bad_record_stops_the_writer
           [identified_permit 7 "A"; null_geometry_permit] "out.csv" no_files H).
Defined.

Lemma subsequence_length {A : Type} (l1 l2 : list A) :
  subsequence l1 l2 -> (List.length l1 <= List.length l2)%nat.
Proof. induction 1; simpl; lia. Qed.

Lemma Forall2_length_eq {A B : Type} (R : A -> B -> Prop) (l1 : list A) (l2 : list B) :
  Forall2 R l1 l2 -> List.length l1 = List.length l2.
Proof. induction 1; simpl; congruence. Qed.

(** X4.  With writable records the first record is never dropped: the
    list [unique_permits] that the writer hands to [writerows] begins with
    the first record normalised, and it never has more rows than there are
    records. *)
Theorem first_record_is_first_row (p0 : json) (rest : list json) :
  Forall (fun p => writable p = true) (p0 :: rest) ->
  exists r0 more,
    extract_permit_data p0 = Ok r0 /\
    (cleaned_permits <- clean_all (p0 :: rest) ;;
     dedup_loop cleaned_permits [] [])%result = Ok (r0 :: more) /\
    (List.length more <= List.length rest)%nat.
Proof.
  intros Hall.
  destruct (clean_all_ok (p0 :: rest) Hall) as (cleaned & Hc & H2 & Hh).
  inversion H2 as [|? r0 ? cleaned' Hp0 H2']; subst.
  exists r0, (first_seen [permit_id r0] cleaned').
  split; [exact Hp0|]. split.
  - rewrite Hc. cbn [rbind]. now rewrite dedup_loop_first_seen.
  - rewrite (Forall2_length_eq _ _ _ H2').
    apply subsequence_length, first_seen_subsequence.
Qed.

Lemma first_record_is_first_row_witness :
  Forall (fun p => writable p = true) [identified_permit 7 "A"; identified_permit 7 "C"] /\
  exists r0 more,
    extract_permit_data (identified_permit 7 "A") = Ok r0 /\
    (cleaned_permits <- clean_all [identified_permit 7 "A"; identified_permit 7 "C"] ;;
     dedup_loop cleaned_permits [] [])%result = Ok (r0 :: more) /\
    (List.length more <= 1)%nat.
Proof.
  split; [repeat constructor|].
  apply (first_record_is_first_row (identified_permit 7 "A") [identified_permit 7 "C"]).
  repeat constructor.
Defined.

Lemma first_seen_app (l1 l2 : list row) :
  forall seen,
    first_seen seen (l1 ++ l2) =
    (first_seen seen l1 ++
     first_seen (rev (map permit_id (first_seen seen l1)) ++ seen) l2)%list.
Proof.
  induction l1 as [|r l1 IH]; intros seen; simpl; [reflexivity|].
  destruct (set_mem (permit_id r) seen); [apply IH|].
  simpl. rewrite IH, <- app_assoc. reflexivity.
Qed.

Lemma first_seen_all_seen (l : list row) (seen : list json) :
  (forall r, In r l -> set_mem (permit_id r) seen = true) -> first_seen seen l = [].
Proof.
  induction l as [|r l IH]; intros H; simpl; [reflexivity|].
  rewrite (H r (or_introl eq_refl)). apply IH. intros r' Hr'. apply H. now right.
Qed.

Lemma set_mem_app (k : json) (a b : list json) :
  set_mem k (a ++ b) = set_mem k a || set_mem k b.
Proof. apply existsb_app. Qed.

Lemma first_seen_remembers (l : list row) (seen : list json) (r : row) :
  In r l -> hashable (permit_id r) = true ->
  set_mem (permit_id r) (rev (map permit_id (first_seen seen l)) ++ seen) = true.
Proof.
  intros Hin Hh. rewrite set_mem_app.
  destruct (set_mem (permit_id r) seen) eqn:Hseen; [apply orb_true_r|].
  rewrite orb_false_r.
  destruct (first_seen_one l seen (permit_id r) Hseen) as (pre & u & post & _ & Hu & _ & Hrows).
  { exists r. split; [assumption|]. now apply key_eqb_refl. }
  apply existsb_exists. exists (permit_id u). split; [|exact Hu].
  apply in_rev. rewrite rev_involutive. apply in_map.
  assert (Hin' : In u (rows_with_id (permit_id r) (first_seen seen l)))
    by (rewrite Hrows; now left).
  now apply filter_In in Hin'.
Qed.

Lemma Forall2_In_r {A B : Type} (R : A -> B -> Prop) (l1 : list A) (l2 : list B) :
  Forall2 R l1 l2 -> forall b, In b l2 -> exists a, In a l1 /\ R a b.
Proof.
  induction 1 as [|x y l1 l2 Hxy H IH]; intros b Hb; [contradiction|].
  destruct Hb as [<-|Hb].
  - exists x. split; [now left|assumption].
  - destruct (IH b Hb) as (a & Ha & Hab). exists a. split; [now right|assumption].
Qed.

(** X5.  Records whose ids were all seen already change nothing: appending
    them to the input gives the same file.  In particular a crawl that
    collected every permit twice writes what a single pass writes. *)
Theorem repeated_ids_change_nothing
    (permits extra : list json) (output_file : string) (fs : filesystem) :
  permits <> [] ->
  Forall (fun p => writable p = true) permits ->
  Forall (fun p => writable p = true) extra ->
  (forall e, In e extra ->
     exists p, In p permits /\ key_eqb (record_id e) (record_id p) = true) ->
  save_to_csv (permits ++ extra) output_file fs = save_to_csv permits output_file fs.
Proof.
  intros Hne Hall Hextra Hseen.
  destruct (clean_all_ok permits Hall) as (c1 & Hc1 & H21 & Hh1).
  destruct (clean_all_ok extra Hextra) as (c2 & Hc2 & H22 & Hh2).
  unfold save_to_csv.
  destruct permits as [|p0 rest] eqn:Hp; [congruence|]. rewrite <- Hp in *.
  assert (Happ : (permits ++ extra)%list = p0 :: (rest ++ extra)%list) by now rewrite Hp.
  rewrite Happ. rewrite <- Happ. clear Happ.
  rewrite clean_all_app, Hc1, Hc2. cbn [rbind].
  rewrite !dedup_loop_first_seen; try assumption; [|apply Forall_app; now split].
  cbn [app]. rewrite first_seen_app.
  rewrite (first_seen_all_seen c2); [now rewrite app_nil_r|].
  intros r Hr.
  destruct (Forall2_In_r _ _ _ H22 r Hr) as (e & He & Her).
  destruct (Hseen e He) as (p & Hpin & Hkey).
  destruct (Forall2_In_l _ _ _ H21 p Hpin) as (rp & Hrp & Hprp).
  rewrite <- (extract_permit_id _ _ Her), <- (extract_permit_id _ _ Hprp) in Hkey.
  rewrite (set_mem_compat _ _ _ Hkey).
  apply first_seen_remembers; [assumption|].
  rewrite Forall_forall in Hh1. now apply Hh1.
Qed.

Lemma repeated_ids_change_nothing_witness :
  save_to_csv ([identified_permit 7 "A"; identified_permit 8 "B"] ++
               [identified_permit 8 "B"; identified_permit 7 "A"]) "out.csv" no_files =
  save_to_csv [identified_permit 7 "A"; identified_permit 8 "B"] "out.csv" no_files.
Proof.
  apply (repeated_ids_change_nothing
           [identified_permit 7 "A"; identified_permit 8 "B"]
           [identified_permit 8 "B"; identified_permit 7 "A"] "out.csv" no_files).
  - discriminate.
  - repeat constructor.
  - repeat constructor.
  - intros e [<-|[<-|[]]].
    + exists (identified_permit 8 "B"). split; [right; now left | reflexivity].
    + exists (identified_permit 7 "A"). split; [now left | reflexivity].
Defined.

Lemma first_seen_keeps_distinct (rs : list row) :
  forall seen,
    (forall r, In r rs -> set_mem (permit_id r) seen = false) ->
    ForallOrdPairs distinct_ids rs ->
    first_seen seen rs = rs.
Proof.
  induction rs as [|r rest IH]; intros seen Hseen Hdist; simpl; [reflexivity|].
  rewrite (Hseen r (or_introl eq_refl)).
  inversion Hdist as [|? ? Hr Hrest]; subst. f_equal. apply IH; [|assumption].
  intros r' Hr'. simpl. rewrite (Hseen r' (or_intror Hr')), orb_false_r.
  rewrite Forall_forall in Hr. specialize (Hr r' Hr'). unfold distinct_ids in Hr.
  now rewrite key_eqb_sym.
Qed.

Lemma distinct_records_distinct_rows (permits : list json) (cleaned : list row) :
  Forall2 (fun p r => extract_permit_data p = Ok r) permits cleaned ->
  ForallOrdPairs (fun a b => key_eqb (record_id a) (record_id b) = false) permits ->
  ForallOrdPairs distinct_ids cleaned.
Proof.
  induction 1 as [|p r permits cleaned Hpr H2 IH]; intros Hd; [constructor|].
  inversion Hd as [|? ? Hp Hrest]; subst. constructor; [|now apply IH].
  apply Forall_forall. intros r' Hr'.
  destruct (Forall2_In_r _ _ _ H2 r' Hr') as (p' & Hp' & Hpr').
  rewrite Forall_forall in Hp. specialize (Hp p' Hp').
  unfold distinct_ids. now rewrite (extract_permit_id _ _ Hpr), (extract_permit_id _ _ Hpr').
Qed.

(** X6.  When the ids of the records are pairwise different nothing is
    dropped: the file has one row per record, each the record normalised,
    in input order. *)
Theorem distinct_ids_lose_nothing
    (permits : list json) (output_file : string) (fs : filesystem) :
  permits <> [] ->
  Forall (fun p => writable p = true) permits ->
  ForallOrdPairs (fun a b => key_eqb (record_id a) (record_id b) = false) permits ->
  exists cleaned,
    Forall2 (fun p r => extract_permit_data p = Ok r) permits cleaned /\
    save_to_csv permits output_file fs =
      Ok (write_file output_file {| header := fieldnames; rows := cleaned |} fs).
Proof.
  intros Hne Hall Hdist.
  destruct (save_to_csv_writes permits output_file fs Hne Hall) as (cleaned & H2 & Hh & Hsave).
  exists cleaned. split; [assumption|].
  rewrite Hsave, first_seen_keeps_distinct; auto.
  eapply distinct_records_distinct_rows; eauto.
Qed.

Lemma distinct_ids_lose_nothing_witness :
  exists cleaned,
    Forall2 (fun p r => extract_permit_data p = Ok r)
      [identified_permit 7 "A"; anonymous_permit "B"; identified_permit 8 "C"] cleaned /\
    save_to_csv [identified_permit 7 "A"; anonymous_permit "B"; identified_permit 8 "C"]
      "out.csv" no_files =
      Ok (write_file "out.csv" {| header := fieldnames; rows := cleaned |} no_files).
Proof.
  apply (distinct_ids_lose_nothing
           [identified_permit 7 "A"; anonymous_permit "B"; identified_permit 8 "C"]
           "out.csv" no_files).
  - discriminate.
  - repeat constructor.
  - repeat constructor.
Defined.

(** ** The marker loop and the location query *)



(** X8.  A marker that is not a dict, or whose [properties] is not one, makes
    the marker loop raise: the details fetched for the markers before it
    are not returned. *)
Theorem malformed_marker_aborts_the_box (net : remote) (locations : list json) :
  forall (detailed_permits : list json) (s : state),
    (exists location e, In location locations /\ marker_id location = Raise e) ->
    raises (fst (fetch_loop net locations detailed_permits s)).
Proof.
  induction locations as [|l rest IH]; intros acc s (location & e & Hin & Hbad);
    [contradiction|].
  cbn [fetch_loop]. unfold bind at 1. unfold fetch_one, bind, lift.
  destruct (marker_id l) as [v|e'] eqn:Hl; [|now exists e'].
  assert (Hrest : exists location e, In location rest /\ marker_id location = Raise e).
  { destruct Hin as [->|Hin]; [congruence|eauto]. }
  destruct (truthy v); cbn [negb].
  - destruct (get_permit_details net v s) as [[details|e'] s1]; [|now exists e'].
    destruct (truthy details); unfold ret; now apply IH.
  - unfold ret. now apply IH.
Qed.

Lemma malformed_marker_aborts_the_box_witness :
  (exists location e,
      In location [marker (JInt 5); JStr "cluster"] /\ marker_id location = Raise e) /\
  raises (fst (fetch_loop truncating_net [marker (JInt 5); JStr "cluster"] []
                 (new_scraper 1 1700000000))).
Proof.
  assert (H : exists location e,
             In location [marker (JInt 5); JStr "cluster"] /\ marker_id location = Raise e).
  { exists (JStr "cluster"), AttributeError. split; [right; now left | reflexivity]. }
  split; [exact H|].
  exact (malformed_marker_aborts_the_box truncating_net _ [] (new_scraper 1 1700000000) H).
Defined.

Lemma get_locations_decoded (net : remote) (lat_min lat_max lon_min lon_max : Q)
    (window : Z) (types : list Z) (s : state) (data : json) :
  respond net (sent s) (GetLocations lat_min lat_max lon_min lon_max window types)
    = Decoded data ->
  fst (get_locations net lat_min lat_max lon_min lon_max window types s) =
  (count <- dict_get data "count" (JInt 0) ;;
   inner <- dict_get data "data" (JObj []) ;;
   features <- dict_get inner "features" (JList []) ;;
   _ <- py_len features ;;
   Ok features)%result.
Proof.
  intros H. unfold get_locations, bind, wait, try_except, http_get, lift.
  rewrite wait_sent, H.
  destruct data as [| | | | | |kvs]; try reflexivity.
  cbn [dict_get rbind].
  destruct (match assoc "data" kvs with Some v => v | None => JObj [] end)
    as [| | | | | |inner]; try reflexivity.
  cbn [dict_get rbind].
  destruct (match assoc "features" inner with Some v => v | None => JList [] end);
    reflexivity.
Qed.

(** X9.  [count_sweden.py] reports the number of markers in the answer, not
    the [count] the server states beside them. *)
Theorem count_sweden_counts_markers
    (net : remote) (t : Q) (body inner : list (string * json)) (features : list json) :
  respond net [] (GetLocations 55 69 (21 # 2) (49 # 2) 30 [0; 1; 2; 3])
    = Decoded (JObj body) ->
  field_or body "data" (JObj []) = JObj inner ->
  field_or inner "features" (JList []) = JList features ->
  fst (count_sweden net t) = Ok (List.length features).
Proof.
  intros Hresp Hdata Hfeat. unfold count_sweden.
  pose proof (get_locations_decoded net 55 69 (21 # 2) (49 # 2) 30 [0; 1; 2; 3]
                (new_scraper 1 t) (JObj body) Hresp) as H.
  unfold dict_get in H. fold (field_or body "data" (JObj [])) in H. cbn [rbind] in H.
  rewrite Hdata in H. fold (field_or inner "features" (JList [])) in H.
  rewrite Hfeat in H. cbn [rbind py_len] in H.
  destruct (get_locations net 55 69 (21 # 2) (49 # 2) 30 [0; 1; 2; 3] (new_scraper 1 t))
    as [r s']. simpl in H. subst r. reflexivity.
Qed.

Lemma count_sweden_counts_markers_witness :
  fst (count_sweden truncating_net 1700000000) = Ok 2%nat.
Proof.
  apply (count_sweden_counts_markers truncating_net 1700000000
           [ ("count", JInt 150);
             ("data", JObj [ ("features", JList [ marker (JInt 5); marker (JInt 6) ]) ]) ]
           [ ("features", JList [ marker (JInt 5); marker (JInt 6) ]) ]
           [ marker (JInt 5); marker (JInt 6) ]); reflexivity.
Defined.

(** X10.  A decoded body that is not a JSON object is not caught by the
    [except] clauses: the [AttributeError] leaves [get_locations] and
    [scrape_bounding_box] and ends the grid crawl, whatever had been
    collected in the cells before. *)
Theorem malformed_body_aborts_the_crawl
    (net : remote) (c : bbox) (rest : list bbox) (window : Z) (types : list Z)
    (fetch_details : bool) (all_permits : list json) (s : state) (data : json) :
  respond net (sent s) (cell_request c window types) = Decoded data ->
  (forall kvs, data <> JObj kvs) ->
  fst (scrape_cells net (c :: rest) window types fetch_details all_permits s)
    = Raise AttributeError.
Proof.
  intros Hresp Hshape. cbn [scrape_cells]. unfold bind at 1.
  unfold scrape_bounding_box, bind at 1.
  pose proof (get_locations_decoded net _ _ _ _ window types s data Hresp) as H.
  destruct (get_locations net (lat_min c) (lat_max c) (lon_min c) (lon_max c)
              window types s) as [r s'].
  simpl in H. subst r.
  destruct data; try reflexivity. exfalso. eapply Hshape; reflexivity.
Qed.

Lemma malformed_body_aborts_the_crawl_witness :
  fst (scrape_cells
         {| respond := fun _ _ => Decoded (JList []);
            latency := fun _ => 0%Q; oversleep := fun _ => 0%Q |}
         [stockholm_bbox] 30 [0; 1; 2; 3] true [identified_permit 5 "Kv. Eken"]
         (new_scraper 1 1700000000))
  = Raise AttributeError.
Proof.
  apply (malformed_body_aborts_the_crawl _ stockholm_bbox [] 30 [0; 1; 2; 3] true
           [identified_permit 5 "Kv. Eken"] (new_scraper 1 1700000000) (JList []));
    [reflexivity | discriminate].
Defined.

(** ** The crawl on the clock *)

Lemma Qnat_add (n m : nat) : (Qnat (n + m) == Qnat n + Qnat m)%Q.
Proof. unfold Qnat. rewrite Nat2Z.inj_add, inject_Z_plus. reflexivity. Qed.

Lemma paced_refl (s : state) : paced s s.
Proof.
  split; [reflexivity|]. split; [lra|]. exists []. repeat split; congruence.
Qed.

Lemma paced_trans (s s1 s2 : state) : paced s s1 -> paced s1 s2 -> paced s s2.
Proof.
  intros (Hrl1 & Hnow1 & new1 & Hsent1 & Hnil1 & Hcons1)
         (Hrl2 & Hnow2 & new2 & Hsent2 & Hnil2 & Hcons2).
  split; [congruence|]. split; [lra|].
  exists (new2 ++ new1)%list. split; [rewrite Hsent2, Hsent1; apply app_assoc|].
  rewrite Hrl1 in *. split.
  - intros Hnil. apply app_eq_nil in Hnil as [-> ->].
    rewrite (Hnil2 eq_refl). now apply Hnil1.
  - intros Hne. rewrite length_app, Qnat_add.
    destruct new2 as [|r2 new2'], new1 as [|r1 new1'].
    + exfalso. now apply Hne.
    + specialize (Hnil2 eq_refl). destruct Hcons1 as (H1 & H2 & H3); [discriminate|].
      rewrite Hnil2. change (Qnat (List.length (@nil request))) with 0%Q.
      repeat split; lra.
    + specialize (Hnil1 eq_refl). destruct Hcons2 as (H1 & H2 & H3); [discriminate|].
      rewrite Hnil1 in *. change (Qnat (List.length (@nil request))) with 0%Q.
      repeat split; lra.
    + destruct Hcons1 as (H1 & H2 & H3); [discriminate|].
      destruct Hcons2 as (H4 & H5 & H6); [discriminate|].
      repeat split; lra.
Qed.

(** One wait followed by one request. *)
Lemma paced_request {A : Type} (net : remote) (req : request) (s : state) :
  calm net ->
  paced s (snd (bind (wait net) (fun _ => http_get net req) s)).
Proof.
  intros Hcalm. destruct (Hcalm (List.length (sent s))) as [Hlat Hover].
  destruct (rate_limit_wait_spec (oversleep net (List.length (sent s))) s Hover)
    as (Hrl & Hlast & Hnow & Hgap).
  unfold bind, wait, http_get. rewrite wait_sent.
  set (s1 := _rate_limit_wait (oversleep net (List.length (sent s))) s) in *.
  assert (Hp : paced s {| rate_limit := rate_limit s1;
                          last_request_time := last_request_time s1;
                          now := now s1 + latency net (List.length (sent s));
                          sent := req :: sent s |}).
  { split; [exact Hrl|]. cbn [now last_request_time sent rate_limit].
    split; [lra|]. exists [req]. split; [reflexivity|]. split; [discriminate|].
    intros _. cbn [List.length]. change (Qnat 1) with 1%Q. rewrite Hlast.
    repeat split; lra. }
  destruct (respond net (sent s) req); exact Hp.
Qed.

Lemma get_permit_details_paced (net : remote) (permit_id : json) (s : state) :
  calm net -> paced s (snd (get_permit_details net permit_id s)).
Proof.
  intros Hcalm.
  pose proof (paced_request (A := json) net (GetDetails permit_id) s Hcalm) as Hp.
  unfold get_permit_details, bind, try_except in Hp |- *.
  destruct (wait net s) as [[[]|e] s0]; [|exact Hp].
  destruct (http_get net (GetDetails permit_id) s0) as [[data|e] s1]; [exact Hp|].
  unfold on_http_error.
  destruct (is_RequestException e); [exact Hp|].
  destruct (is_JSONDecodeError e); exact Hp.
Qed.

Lemma get_locations_paced (net : remote) (lat_min lat_max lon_min lon_max : Q)
    (window : Z) (types : list Z) (s : state) :
  calm net ->
  paced s (snd (get_locations net lat_min lat_max lon_min lon_max window types s)).
Proof.
  intros Hcalm.
  pose proof (paced_request (A := json) net
                (GetLocations lat_min lat_max lon_min lon_max window types) s Hcalm) as Hp.
  unfold get_locations, bind, try_except, lift in Hp |- *.
  destruct (wait net s) as [[[]|e] s0]; [|exact Hp].
  destruct (http_get net _ s0) as [[data|e] s1].
  - destruct (dict_get data "count" (JInt 0)) as [count|e]; [|destruct e; exact Hp].
    destruct (dict_get data "data" (JObj [])) as [inner|e]; [|destruct e; exact Hp].
    destruct (dict_get inner "features" (JList [])) as [features|e];
      [|destruct e; exact Hp].
    destruct (py_len features) as [n|e]; [exact Hp|destruct e; exact Hp].
  - unfold on_http_error.
    destruct (is_RequestException e); [exact Hp|].
    destruct (is_JSONDecodeError e); exact Hp.
Qed.

Lemma fetch_loop_paced (net : remote) (locations : list json) :
  calm net ->
  forall detailed_permits s, paced s (snd (fetch_loop net locations detailed_permits s)).
Proof.
  intros Hcalm. induction locations as [|location rest IH]; intros acc s.
  - apply paced_refl.
  - cbn [fetch_loop]. unfold bind at 1. unfold fetch_one, bind, lift.
    destruct (marker_id location) as [v|e]; [|apply paced_refl].
    destruct (truthy v); cbn [negb].
    + pose proof (get_permit_details_paced net v s Hcalm) as Hp.
      destruct (get_permit_details net v s) as [[details|e] s1]; [|exact Hp].
      simpl in Hp. destruct (truthy details); unfold ret;
        (eapply paced_trans; [exact Hp | apply IH]).
    + unfold ret. apply IH.
Qed.

Lemma scrape_bounding_box_paced (net : remote) (lat_min lat_max lon_min lon_max : Q)
    (window : Z) (types : list Z) (fetch_details : bool) (s : state) :
  calm net ->
  paced s (snd (scrape_bounding_box net lat_min lat_max lon_min lon_max window types
                  fetch_details s)).
Proof.
  intros Hcalm. unfold scrape_bounding_box, bind, lift.
  pose proof (get_locations_paced net lat_min lat_max lon_min lon_max window types s Hcalm)
    as Hp.
  destruct (get_locations net lat_min lat_max lon_min lon_max window types s)
    as [[locations|e] s1]; [|exact Hp].
  simpl in Hp. destruct (truthy locations); cbn [negb]; [|exact Hp].
  destruct fetch_details; cbn [negb]; [|exact Hp].
  destruct (py_len locations); [|exact Hp].
  destruct (py_iter locations) as [items|e]; [|exact Hp].
  pose proof (fetch_loop_paced net items Hcalm [] s1) as Hq.
  destruct (fetch_loop net items [] s1) as [[d|e] s2]; simpl in Hq;
    eapply paced_trans; eauto.
Qed.

Lemma scrape_cells_paced (net : remote) (cells : list bbox) (window : Z) (types : list Z)
    (fetch_details : bool) :
  calm net ->
  forall all_permits s,
    paced s (snd (scrape_cells net cells window types fetch_details all_permits s)).
Proof.
  intros Hcalm. induction cells as [|c rest IH]; intros acc s.
  - apply paced_refl.
  - cbn [scrape_cells]. unfold bind at 1.
    pose proof (scrape_bounding_box_paced net (lat_min c) (lat_max c) (lon_min c) (lon_max c)
                  window types fetch_details s Hcalm) as Hp.
    destruct (scrape_bounding_box net (lat_min c) (lat_max c) (lon_min c) (lon_max c)
                window types fetch_details s) as [[permits|e] s1]; [|exact Hp].
    simpl in Hp. unfold bind, lift.
    destruct (py_iter permits) as [items|e]; [|exact Hp].
    eapply paced_trans; [exact Hp | apply IH].
Qed.

Lemma paced_duration (s s' : state) :
  paced s s' ->
  exists new,
    sent s' = (new ++ sent s)%list /\
    (Qnat (List.length new - 1) * rate_limit s <= now s' - now s)%Q.
Proof.
  intros (Hrl & Hnow & new & Hsent & Hnil & Hcons). exists new. split; [exact Hsent|].
  destruct new as [|r new'].
  - cbn. change (Qnat 0) with 0%Q. lra.
  - destruct Hcons as (H1 & H2 & H3); [discriminate|].
    cbn [List.length] in *. rewrite Qnat_S in H3.
    replace (S (List.length new') - 1)%nat with (List.length new') by lia. lra.
Qed.

Lemma fetch_loop_grows (net : remote) (locations : list json) :
  forall detailed_permits s,
    exists new, sent (snd (fetch_loop net locations detailed_permits s)) = (new ++ sent s)%list.
Proof.
  induction locations as [|location rest IH]; intros acc s; [now exists []|].
  cbn [fetch_loop]. unfold bind at 1. unfold fetch_one, bind, lift.
  destruct (marker_id location) as [v|e]; [|now exists []].
  destruct (truthy v); cbn [negb]; [|unfold ret; apply IH].
  pose proof (get_permit_details_sent net v s) as Hsent.
  destruct (get_permit_details net v s) as [[details|e] s1]; simpl in Hsent.
  - assert (H : forall acc', exists new,
                 sent (snd (fetch_loop net rest acc' s1)) = (new ++ sent s)%list).
    { intros acc'. destruct (IH acc' s1) as (new & Hnew).
      exists (new ++ [GetDetails v])%list. rewrite Hnew, Hsent, <- app_assoc. reflexivity. }
    destruct (truthy details); unfold ret; apply H.
  - exists [GetDetails v]. simpl. exact Hsent.
Qed.

(** The log of a box: the location request first, then whatever the
    marker loop sent. *)
Lemma scrape_bounding_box_grows
    (net : remote) (lat_min lat_max lon_min lon_max : Q) (window : Z) (types : list Z)
    (fetch_details : bool) (s : state) :
  exists new,
    sent (snd (scrape_bounding_box net lat_min lat_max lon_min lon_max window types
                 fetch_details s)) =
    (new ++ GetLocations lat_min lat_max lon_min lon_max window types :: sent s)%list.
Proof.
  unfold scrape_bounding_box, bind, lift.
  pose proof (get_locations_sent net lat_min lat_max lon_min lon_max window types s) as Hl.
  destruct (get_locations net lat_min lat_max lon_min lon_max window types s)
    as [[locations|e] s1]; simpl in Hl; [|now exists []].
  destruct (truthy locations); cbn [negb]; [|now exists []].
  destruct fetch_details; cbn [negb]; [|now exists []].
  destruct (py_len locations); [|now exists []].
  destruct (py_iter locations) as [items|e]; [|now exists []].
  destruct (fetch_loop_grows net items [] s1) as (new & Hnew).
  exists new. rewrite <- Hl.
  destruct (fetch_loop net items [] s1) as [[d|e] s2]; exact Hnew.
Qed.

(** X11.  On a server that takes no negative time, the requests of one box,
    the location query and every detail fetch, are spaced by the limiter:
    a box that issues k requests takes at least (k - 1) intervals, and it
    issues at least one. *)
Theorem box_requests_are_paced
    (net : remote) (lat_min lat_max lon_min lon_max : Q) (window : Z) (types : list Z)
    (fetch_details : bool) (s : state) :
  calm net ->
  exists new,
    sent (snd (scrape_bounding_box net lat_min lat_max lon_min lon_max window types
                 fetch_details s)) = (new ++ sent s)%list /\
    new <> [] /\
    (Qnat (List.length new - 1) * rate_limit s
       <= now (snd (scrape_bounding_box net lat_min lat_max lon_min lon_max window types
                      fetch_details s)) - now s)%Q.
Proof.
  intros Hcalm.
  destruct (paced_duration _ _ (scrape_bounding_box_paced net lat_min lat_max lon_min lon_max
                                  window types fetch_details s Hcalm))
    as (new & Hsent & Hdur).
  exists new. repeat split; auto.
  intros ->.
  destruct (scrape_bounding_box_grows net lat_min lat_max lon_min lon_max window types
              fetch_details s) as (new' & Hnew').
  rewrite Hsent in Hnew'. apply (f_equal (@List.length request)) in Hnew'.
  rewrite !length_app in Hnew'. simpl in Hnew'. lia.
Qed.

Lemma truncating_net_calm : calm truncating_net.
Proof. intros n. split; discriminate. Qed.

Lemma box_requests_are_paced_witness :
  calm truncating_net /\
  exists new,
    sent (snd (scrape_bounding_box truncating_net 55 57 (21 # 2) (25 # 2) 30 [0; 1; 2; 3] true
                 (new_scraper 1 1700000000))) = (new ++ [])%list /\
    new <> [] /\
    (Qnat (List.length new - 1) * 1
       <= now (snd (scrape_bounding_box truncating_net 55 57 (21 # 2) (25 # 2) 30%Z
                      [0; 1; 2; 3]%Z true (new_scraper 1 1700000000))) - 1700000000)%Q.
Proof.
  split; [exact truncating_net_calm|].
  exact (box_requests_are_paced truncating_net 55 57 (21 # 2) (25 # 2) 30 [0; 1; 2; 3] true
           (new_scraper 1 1700000000) truncating_net_calm).
Defined.

Lemma scrape_cells_requests (net : remote) (cells : list bbox) (window : Z) (types : list Z)
    (fetch_details : bool) :
  forall all_permits s result,
    fst (scrape_cells net cells window types fetch_details all_permits s) = Ok result ->
    exists new,
      sent (snd (scrape_cells net cells window types fetch_details all_permits s))
        = (new ++ sent s)%list /\
      (List.length cells <= List.length new)%nat.
Proof.
  induction cells as [|c rest IH]; intros acc s result Hres.
  - exists []. split; [reflexivity|simpl; lia].
  - cbn [scrape_cells] in Hres |- *. unfold bind at 1 in Hres. unfold bind at 1.
    destruct (scrape_bounding_box_grows net (lat_min c) (lat_max c) (lon_min c) (lon_max c)
                window types fetch_details s) as (new1 & Hnew1).
    destruct (scrape_bounding_box net (lat_min c) (lat_max c) (lon_min c) (lon_max c)
                window types fetch_details s) as [[permits|e] s1]; [|discriminate Hres].
    simpl in Hnew1. unfold bind, lift in Hres |- *.
    destruct (py_iter permits) as [items|e]; [|discriminate Hres].
    destruct (IH _ _ _ Hres) as (new2 & Hnew2 & Hlen).
    exists (new2 ++ new1 ++ [cell_request c window types])%list. split.
    + rewrite Hnew2, Hnew1, <- !app_assoc. reflexivity.
    + rewrite !length_app. simpl. lia.
Qed.

(** X12.  The grid crawl on the clock: with k requests issued it has taken at
    least (k - 1) intervals, and a crawl that returns has issued at least
    one request per cell. *)
Theorem crawl_requests_are_paced
    (net : remote) (cells : list bbox) (window : Z) (types : list Z)
    (fetch_details : bool) (all_permits : list json) (s : state) :
  calm net ->
  exists new,
    sent (snd (scrape_cells net cells window types fetch_details all_permits s))
      = (new ++ sent s)%list /\
    (Qnat (List.length new - 1) * rate_limit s
       <= now (snd (scrape_cells net cells window types fetch_details all_permits s))
          - now s)%Q /\
    (forall result,
        fst (scrape_cells net cells window types fetch_details all_permits s) = Ok result ->
        (List.length cells <= List.length new)%nat).
Proof.
  intros Hcalm.
  destruct (paced_duration _ _ (scrape_cells_paced net cells window types fetch_details
                                  Hcalm all_permits s)) as (new & Hsent & Hdur).
  exists new. repeat split; auto.
  intros result Hres.
  destruct (scrape_cells_requests net cells window types fetch_details _ _ _ Hres)
    as (new' & Hnew' & Hlen).
  rewrite Hsent in Hnew'. apply app_inv_tail in Hnew'. now subst.
Qed.

Lemma crawl_requests_are_paced_witness :
  calm truncating_net /\
  exists new,
    sent (snd (scrape_cells truncating_net [sweden_bbox; stockholm_bbox] 30 [0; 1; 2; 3] true
                 [] (new_scraper 1 1700000000))) = (new ++ [])%list /\
    (Qnat (List.length new - 1) * 1
       <= now (snd (scrape_cells truncating_net [sweden_bbox; stockholm_bbox] 30%Z
                      [0; 1; 2; 3]%Z true [] (new_scraper 1 1700000000))) - 1700000000)%Q.
Proof.
  split; [exact truncating_net_calm|].
  destruct (crawl_requests_are_paced truncating_net [sweden_bbox; stockholm_bbox] 30
              [0; 1; 2; 3] true [] (new_scraper 1 1700000000) truncating_net_calm)
    as (new & Hsent & Hdur & _).
  exists new. split; assumption.
Defined.

(** ** The crawl during an outage *)

Lemma scrape_bounding_box_failure (net : remote) (s : state) (r : http_response)
    (lat_min lat_max lon_min lon_max : Q) (window : Z) (types : list Z)
    (fetch_details : bool) :
  failed r = true ->
  respond net (sent s) (GetLocations lat_min lat_max lon_min lon_max window types)
    = exchange r ->
  exists s',
    scrape_bounding_box net lat_min lat_max lon_min lon_max window types fetch_details s
      = (Ok (JList []), s') /\
    sent s' = GetLocations lat_min lat_max lon_min lon_max window types :: sent s.
Proof.
  intros Hr H. unfold scrape_bounding_box, bind.
  pose proof (get_locations_failure net s r lat_min lat_max lon_min lon_max window types
                Hr H) as Hloc.
  pose proof (get_locations_sent net lat_min lat_max lon_min lon_max window types s) as Hsent.
  destruct (get_locations net lat_min lat_max lon_min lon_max window types s) as [res s'].
  simpl in Hloc, Hsent. subst res. exists s'. split; [reflexivity|exact Hsent].
Qed.

Lemma scrape_cells_outage
    (net : remote) (cells : list bbox) (window : Z) (types : list Z)
    (fetch_details : bool) :
  outage net ->
  forall (all_permits : list json) (s : state),
  exists s',
    scrape_cells net cells window types fetch_details all_permits s = (Ok all_permits, s') /\
    sent s' = (rev (map (fun c => cell_request c window types) cells) ++ sent s)%list.
Proof.
  intros Hout. induction cells as [|c rest IH]; intros acc s.
  - exists s. split; reflexivity.
  - cbn [scrape_cells]. unfold bind at 1.
    destruct (Hout (sent s) (cell_request c window types)) as (r & Hr & Hresp).
    destruct (scrape_bounding_box_failure net s r (lat_min c) (lat_max c) (lon_min c)
                (lon_max c) window types fetch_details Hr Hresp) as (s1 & Hbox & Hsent).
    rewrite Hbox. unfold bind, lift. cbn [py_iter]. rewrite app_nil_r.
    destruct (IH acc s1) as (s' & Hrest & Hsent').
    exists s'. split; [exact Hrest|].
    rewrite Hsent', Hsent. cbn [map rev]. rewrite <- app_assoc. reflexivity.
Qed.

(** X13.  While every exchange fails, each in whatever way (no answer, a
    status from 400 to 599, a body that is not JSON), the grid crawl still
    visits every cell: it sends the location request of each cell, in grid
    order, sends nothing else, and returns what it had collected before,
    unchanged and without raising. *)
Theorem outage_crawl_visits_every_cell
    (net : remote) (cells : list bbox) (window : Z) (types : list Z)
    (fetch_details : bool) (all_permits : list json) (s : state) :
  outage net ->
  exists s',
    scrape_cells net cells window types fetch_details all_permits s = (Ok all_permits, s') /\
    sent s' = (rev (map (fun c => cell_request c window types) cells) ++ sent s)%list.
Proof.
  intros Hout. now apply scrape_cells_outage.
Qed.

Lemma mixed_outage_net_outage : outage mixed_outage_net.
Proof.
  intros [|req0 history] req.
  - exists (NoResponse TimedOut). split; reflexivity.
  - exists (Response 503 Undecodable). split; reflexivity.
Qed.

Lemma outage_crawl_visits_every_cell_witness :
  outage mixed_outage_net /\
  exists s',
    scrape_cells mixed_outage_net [sweden_bbox; stockholm_bbox] 30 [0; 1; 2; 3] true
      [identified_permit 5 "Kv. Eken"] (new_scraper 1 1700000000)
      = (Ok [identified_permit 5 "Kv. Eken"], s') /\
    sent s' = [cell_request stockholm_bbox 30 [0; 1; 2; 3];
               cell_request sweden_bbox 30 [0; 1; 2; 3]].
Proof.
  split; [exact mixed_outage_net_outage|].
  exact (outage_crawl_visits_every_cell mixed_outage_net
           [sweden_bbox; stockholm_bbox] 30 [0; 1; 2; 3] true
           [identified_permit 5 "Kv. Eken"] (new_scraper 1 1700000000)
           mixed_outage_net_outage).
Defined.

(** X14.  During an outage, the exchanges failing each in whatever way,
    none of the three scripts writes a file, and each ends normally:
    [main] after one request, the Stockholm script after 12 and the Sweden
    script after 49, one per grid cell. *)
Theorem outage_leaves_no_file
    (net : remote) (t : Q) (stamp : string) (fs : filesystem) :
  outage net ->
  (exists s, main net t stamp fs = (Ok fs, s) /\ List.length (sent s) = 1%nat) /\
  (exists s, scrape_stockholm_full net 4 t stamp fs = Some (Ok fs, s) /\
             List.length (sent s) = 12%nat) /\
  (exists s, scrape_sweden_all net 7 t stamp fs = Some (Ok fs, s) /\
             List.length (sent s) = 49%nat).
Proof.
  intros Hout. repeat split.
  - unfold main.
    destruct (Hout (sent (new_scraper 1 t))
                (GetLocations (296 # 5) (119 # 2) (89 # 5) (91 # 5) 30 [0; 1; 2; 3]))
      as (r & Hr & Hresp).
    destruct (scrape_bounding_box_failure net (new_scraper 1 t) r (296 # 5) (119 # 2)
                (89 # 5) (91 # 5) 30 [0; 1; 2; 3] true Hr Hresp) as (s & Hbox & Hsent).
    rewrite Hbox. exists s. split; [reflexivity|]. now rewrite Hsent.
  - unfold scrape_stockholm_full, scrape_stockholm_complete.
    destruct (grid_cells 4 stockholm_bbox (1 # 10)) as [cells|] eqn:Hcells;
      [|discriminate Hcells].
    destruct (scrape_cells_outage net cells 30 [0; 1; 2; 3] true Hout []
                (new_scraper 1 t)) as (s & Hcrawl & Hsent).
    exists s. unfold crawl_and_save. rewrite Hcrawl. split; [reflexivity|].
    rewrite Hsent, length_app, length_rev, length_map.
    injection Hcells as <-. reflexivity.
  - unfold scrape_sweden_all, scrape_sweden.
    destruct (grid_cells 7 sweden_bbox 2) as [cells|] eqn:Hcells; [|discriminate Hcells].
    destruct (scrape_cells_outage net cells 30 [0; 1; 2; 3] true Hout []
                (new_scraper 1 t)) as (s & Hcrawl & Hsent).
    exists s. unfold crawl_and_save. rewrite Hcrawl. split; [reflexivity|].
    rewrite Hsent, length_app, length_rev, length_map.
    injection Hcells as <-. reflexivity.
Qed.

Lemma outage_leaves_no_file_witness :
  outage mixed_outage_net /\
  exists s,
    scrape_stockholm_full mixed_outage_net 4 1700000000 "20251201_120000"
      no_files = Some (Ok no_files, s) /\
    List.length (sent s) = 12%nat.
Proof.
  split; [exact mixed_outage_net_outage|].
  exact (proj1 (proj2 (outage_leaves_no_file mixed_outage_net
                         1700000000 "20251201_120000" no_files
                         mixed_outage_net_outage))).
Defined.

(** ** The grid beyond the cover *)

Lemma ForallOrdPairs_app {A : Type} (R : A -> A -> Prop) (l1 l2 : list A) :
  ForallOrdPairs R l1 -> ForallOrdPairs R l2 ->
  (forall a b, In a l1 -> In b l2 -> R a b) ->
  ForallOrdPairs R (l1 ++ l2).
Proof.
  induction 1 as [|a l1 Ha Hl1 IH]; intros H2 Hcross; [exact H2|].
  simpl. constructor.
  - apply Forall_app. split; [exact Ha|].
    apply Forall_forall. intros b Hb. apply Hcross; [now left|exact Hb].
  - apply IH; [exact H2|]. intros x y Hx Hy. apply Hcross; [now right|exact Hy].
Qed.

Section GridOrder.

Variable b : bbox.
Variable grid_size : Q.
Hypothesis Hstep : (0 < grid_size)%Q.

(** The cells of a row, as the inner loop returns them. *)
Lemma lon_loop_apart (lat : Q) :
  forall fuel lon cells,
    lon_loop fuel b grid_size lat lon = Some cells ->
    ForallOrdPairs apart cells /\
    (forall c, In c cells ->
       lat_min c = lat /\ (lat_max c <= lat + grid_size)%Q /\ (lon <= lon_min c)%Q).
Proof.
  induction fuel as [|fuel IH]; intros lon cells; cbn [lon_loop];
    destruct (Qltb lon (lon_max b)); try discriminate;
    try (intros H; injection H as <-; split; [constructor|contradiction]).
  destruct (lon_loop fuel b grid_size lat (lon + grid_size)) as [rest|] eqn:Hrest;
    [|discriminate].
  intros H. injection H as <-. destruct (IH _ _ Hrest) as (Hfop & Hcells). split.
  - constructor; [|exact Hfop].
    apply Forall_forall. intros c Hc. destruct (Hcells c Hc) as (_ & _ & Hlon).
    right. cbn [lon_max]. split_min (lon + grid_size)%Q (lon_max b); lra.
  - intros c [<-|Hc]; cbn [lat_min lat_max lon_min].
    + repeat split; try lra. split_min (lat + grid_size)%Q (lat_max b); lra.
    + destruct (Hcells c Hc) as (H1 & H2 & H3). repeat split; auto; lra.
Qed.

(** The rows, as the outer loop returns them. *)
Lemma lat_loop_apart (lon_fuel : nat) :
  forall fuel lat cells,
    lat_loop fuel lon_fuel b grid_size lat = Some cells ->
    ForallOrdPairs apart cells /\ (forall c, In c cells -> (lat <= lat_min c)%Q).
Proof.
  induction fuel as [|fuel IH]; intros lat cells; cbn [lat_loop];
    destruct (Qltb lat (lat_max b)); try discriminate;
    try (intros H; injection H as <-; split; [constructor|contradiction]).
  destruct (lon_loop lon_fuel b grid_size lat (lon_min b)) as [row_cells|] eqn:Hrow;
    [|discriminate].
  destruct (lat_loop fuel lon_fuel b grid_size (lat + grid_size)) as [rest|] eqn:Hrest;
    [|discriminate].
  intros H. injection H as <-.
  destruct (lon_loop_apart lat _ _ _ Hrow) as (Hfop1 & Hcells1).
  destruct (IH _ _ Hrest) as (Hfop2 & Hcells2). split.
  - apply ForallOrdPairs_app; auto.
    intros c1 c2 H1 H2. destruct (Hcells1 c1 H1) as (_ & Hmax & _).
    specialize (Hcells2 c2 H2). left. lra.
  - intros c Hc. apply in_app_or in Hc as [Hc|Hc].
    + destruct (Hcells1 c Hc) as (-> & _). lra.
    + specialize (Hcells2 c Hc). lra.
Qed.

End GridOrder.

(** X15.  The cells of a grid do not overlap: of any two, in row-major order,
    the earlier one ends in latitude or in longitude no later than the
    other begins, so they share border points at most. *)
Theorem grid_cells_do_not_overlap (b : bbox) (grid_size : Q) (fuel : nat) (cells : list bbox) :
  (0 < grid_size)%Q ->
  grid_cells fuel b grid_size = Some cells ->
  ForallOrdPairs apart cells.
Proof.
  intros Hstep Hcells.
  exact (proj1 (lat_loop_apart b grid_size Hstep fuel fuel (lat_min b) cells Hcells)).
Qed.

Lemma grid_cells_do_not_overlap_witness :
  (0 < 1 # 10)%Q /\
  exists cells,
    grid_cells 4 stockholm_bbox (1 # 10) = Some cells /\ ForallOrdPairs apart cells.
Proof.
  split; [reflexivity|].
  destruct (grid_cells 4 stockholm_bbox (1 # 10)) as [cells|] eqn:Hcells;
    [|discriminate Hcells].
  exists cells. split; [reflexivity|].
  exact (grid_cells_do_not_overlap stockholm_bbox (1 # 10) 4 cells eq_refl Hcells).
Defined.

Lemma lon_loop_stuck (b : bbox) (grid_size lat : Q) :
  (grid_size <= 0)%Q ->
  forall fuel lon, (lon < lon_max b)%Q -> lon_loop fuel b grid_size lat lon = None.
Proof.
  intros Hstep. induction fuel as [|fuel IH]; intros lon Hlon; cbn [lon_loop];
    (assert (Hlt : Qltb lon (lon_max b) = true) by now apply Qltb_lt); rewrite Hlt;
    [reflexivity|].
  rewrite IH; [reflexivity|lra].
Qed.

(** X16.  With a cell size of zero or less the grid loops never finish on a
    box that is not empty: the inner loop stays in its first row for
    ever, whatever the number of iterations allowed. *)
Theorem nonpositive_cell_size_never_finishes (b : bbox) (grid_size : Q) :
  (lat_min b < lat_max b)%Q ->
  (lon_min b < lon_max b)%Q ->
  (grid_size <= 0)%Q ->
  forall fuel, grid_cells fuel b grid_size = None.
Proof.
  intros Hlat Hlon Hstep fuel. unfold grid_cells.
  destruct fuel as [|fuel]; cbn [lat_loop];
    (assert (Hlt : Qltb (lat_min b) (lat_max b) = true) by now apply Qltb_lt); rewrite Hlt;
    [reflexivity|].
  now rewrite (lon_loop_stuck b grid_size (lat_min b) Hstep (S fuel) (lon_min b) Hlon).
Qed.

Lemma nonpositive_cell_size_never_finishes_witness :
  (lat_min sweden_bbox < lat_max sweden_bbox)%Q /\
  (lon_min sweden_bbox < lon_max sweden_bbox)%Q /\
  (0 <= 0)%Q /\
  forall fuel, grid_cells fuel sweden_bbox 0 = None.
Proof.
  split; [reflexivity|]. split; [reflexivity|]. split; [discriminate|].
  apply (nonpositive_cell_size_never_finishes sweden_bbox 0); [reflexivity|reflexivity|].
  discriminate.
Defined.

(** ** The limiter from above, and where the normaliser raises *)

(** X17.  The wait is never longer than it has to be: with a clock that has
    not fallen behind the stamp, a call is held back by at most one
    interval plus the overshoot of the sleep, and not at all once an
    interval has passed since the previous call began. *)
Theorem wait_is_at_most_one_interval (extra : Q) (s : state) :
  (0 <= extra)%Q ->
  (0 <= rate_limit s)%Q ->
  (last_request_time s <= now s)%Q ->
  (now s <= now (_rate_limit_wait extra s) /\
   now (_rate_limit_wait extra s) <= now s + rate_limit s + extra)%Q /\
  ((last_request_time s + rate_limit s <= now s)%Q ->
   now (_rate_limit_wait extra s) = now s).
Proof.
  intros Hextra Hrl Hlast. unfold _rate_limit_wait.
  destruct (Qltb (now s - last_request_time s) (rate_limit s)) eqn:Hlt; cbn.
  - apply Qltb_lt in Hlt. split; [split; lra|]. intros H. lra.
  - split; [split; lra|]. reflexivity.
Qed.

Lemma wait_is_at_most_one_interval_witness :
  (0 <= 1 # 10)%Q /\
  (0 <= 1)%Q /\
  (1699999999 + (1 # 2) <= 1700000000)%Q /\
  (1700000000 <= now (_rate_limit_wait (1 # 10)
                        {| rate_limit := 1; last_request_time := 1699999999 + (1 # 2);
                           now := 1700000000; sent := [] |}) /\
   now (_rate_limit_wait (1 # 10)
          {| rate_limit := 1; last_request_time := 1699999999 + (1 # 2);
             now := 1700000000; sent := [] |}) <= 1700000000 + 1 + (1 # 10))%Q.
Proof.
  split; [discriminate|]. split; [discriminate|]. split; [discriminate|].
  exact (proj1 (wait_is_at_most_one_interval (1 # 10)
                  {| rate_limit := 1; last_request_time := 1699999999 + (1 # 2);
                     now := 1700000000; sent := [] |}
                  ltac:(discriminate) ltac:(discriminate) ltac:(discriminate))).
Defined.

(** X18.  The normaliser raises on every value outside the accepted
    records: on anything that is not a dict, on [properties] or [geometry]
    present but not a dict, on a type code that cannot be hashed, on
    Polygon coordinates that are truthy without being a list that starts
    with a falsy ring or with a list of vertices of two numbers each, and
    on Point coordinates without a length or given as a dict of two or
    more keys. *)
Theorem normalizer_raises_outside_accepted_records (permit : json) :
  record_ok permit = false -> raises (extract_permit_data permit).
Proof.
  intros Hbad. destruct (extract_permit_data permit) as [r|e] eqn:Hr; [|now exists e].
  assert (record_ok permit = true) by (apply record_ok_exact; eauto). congruence.
Qed.

Lemma normalizer_raises_outside_accepted_records_witness :
  record_ok (JObj [ ("geometry", JObj [ ("type", JStr "Point");
                                        ("coordinates", JInt 18) ]) ]) = false /\
  raises (extract_permit_data
            (JObj [ ("geometry", JObj [ ("type", JStr "Point");
                                        ("coordinates", JInt 18) ]) ])).
Proof.
  split; [reflexivity|].
  apply (normalizer_raises_outside_accepted_records
           (JObj [ ("geometry", JObj [ ("type", JStr "Point");
                                       ("coordinates", JInt 18) ]) ])).
  reflexivity.
Defined.
